(** * Incremental lint core of the textlint highlighter plugin

    A shallow embedding of [utils/Cache.ts], [utils/AdaptiveProcessor.ts],
    [utils/DifferentialProcessor.ts] and of the analysis cycle of
    [TextlintHighlightPlugin.ts], with the properties of the caching,
    chunking and differential re-analysis core.

    Conventions of the embedding:
    - JS numbers that hold line numbers, indices, timestamps and
      durations are integers ([Z], or [nat] for array indices);
    - a text is held as the bytes of its UTF-8 encoding ([string]);
      where the source works on UTF-16 code units ([charCodeAt],
      [length]) the bytes are decoded first ([Text.codeUnits]);
    - [Date.now()] is an explicit argument [now];
    - a promise is described by its outcome ([Outcome]); an analyzer
      call additionally carries the delay after which it settles
      ([Behaviour]), so that the race against a timer can be decided;
    - module-level mutable state (caches, stores) is passed explicitly. *)

From Stdlib Require Import ZArith String Ascii List Lia DecimalString DecimalZ DecimalPos.
From stdpp Require Import gmap strings list sorting.

Local Open Scope Z_scope.

(** ** Text as lines: [String.prototype.split], [Array.prototype.join],
       [Array.prototype.slice] *)

Module Text.

Definition newline : ascii := "010"%char.

(** [s.split('\n')]: never empty, the empty string gives one empty line. *)
Fixpoint split (s : string) : list string :=
  match s with
  | EmptyString => [EmptyString]
  | String c rest =>
      if Ascii.eqb c newline then EmptyString :: split rest
      else match split rest with
           | [] => [String c EmptyString]
           | l :: ls => String c l :: ls
           end
  end.

(** [ls.join('\n')]. *)
Fixpoint join (ls : list string) : string :=
  match ls with
  | [] => EmptyString
  | l :: ls' =>
      match ls' with
      | [] => l
      | _ :: _ => (l ++ String newline (join ls'))%string
      end
  end.

(** [content.split('\n').length]. *)
Definition lineCount (s : string) : nat := length (split s).

(** Index normalisation of [Array.prototype.slice]: a negative index
    counts from the end, and everything is clamped to [0, len]. *)
Definition sliceIndex (len k : Z) : Z :=
  if k <? 0 then Z.max (len + k) 0 else Z.min k len.

(** [l.slice(a, b)]. *)
Definition slice {A} (l : list A) (a b : Z) : list A :=
  let len := Z.of_nat (length l) in
  let s := sliceIndex len a in
  let e := sliceIndex len b in
  take (Z.to_nat (e - s)) (drop (Z.to_nat s) l).

(** [lines[i] || '']: a missing line reads as the empty string. *)
Definition lineAt (lines : list string) (i : nat) : string :=
  default EmptyString (lines !! i).

Fixpoint hasNewline (s : string) : bool :=
  match s with
  | EmptyString => false
  | String c rest => Ascii.eqb c newline || hasNewline rest
  end.

(** The UTF-16 code units of a text: [s.charCodeAt(i)] is the [i]-th of
    them and [s.length] is their number. A character of one, two or three
    bytes is one code unit, its code point; a character of four bytes (a
    code point above [0xFFFF]) is a surrogate pair. A sequence cut short
    by the end of the text, which no encoded text has, reads as
    [U+FFFD]. *)
Definition byte (c : ascii) : Z := Z.of_nat (nat_of_ascii c).

Definition continuation (c : ascii) : Z := Z.land (byte c) 63.

Fixpoint codeUnits (s : string) : list Z :=
  match s with
  | EmptyString => []
  | String c1 rest1 =>
      let b1 := byte c1 in
      if b1 <? 128 then b1 :: codeUnits rest1
      else if b1 <? 224 then
        match rest1 with
        | String c2 rest2 =>
            (Z.shiftl (Z.land b1 31) 6 + continuation c2) :: codeUnits rest2
        | _ => [65533]
        end
      else if b1 <? 240 then
        match rest1 with
        | String c2 (String c3 rest3) =>
            (Z.shiftl (Z.land b1 15) 12 + Z.shiftl (continuation c2) 6
             + continuation c3) :: codeUnits rest3
        | _ => [65533]
        end
      else
        match rest1 with
        | String c2 (String c3 (String c4 rest4)) =>
            let point :=
              Z.shiftl (Z.land b1 7) 18 + Z.shiftl (continuation c2) 12
              + Z.shiftl (continuation c3) 6 + continuation c4 in
            (55296 + Z.shiftr (point - 65536) 10)
            :: (56320 + Z.land (point - 65536) 1023) :: codeUnits rest4
        | _ => [65533]
        end
  end.

End Text.

(** ** Findings ([types.ts]) *)

Record Fix := { range : Z * Z; text : string }.

Module TextlintMessage.
Record t := mk {
  line : Z;
  column : Z;
  endLine : option Z;
  endColumn : option Z;
  message : string;
  ruleId : string;
  severity : Z;
  fix_ : option Fix
}.
End TextlintMessage.

Module TextlintKernelMessage.
Record t := mk {
  line : Z;
  column : Z;
  endLine : option Z;
  endColumn : option Z;
  message : string;
  ruleId : option string;
  severity : Z;
  fix_ : option Fix
}.
End TextlintKernelMessage.

(** Truthiness of an optional number ([x ? a : b]): [undefined] and [0]
    are falsy. *)
Definition truthyNum (o : option Z) : bool :=
  match o with
  | Some n => negb (n =? 0)
  | None => false
  end.

(** Truthiness of an optional string: [undefined] and [''] are falsy. *)
Definition truthyStr (o : option string) : bool :=
  match o with
  | Some s => negb (String.eqb s EmptyString)
  | None => false
  end.

(** What the chunk merge needs of a message of type [any]: its [line],
    its [endLine], and the object spread [{...msg, line: l, endLine: e}]. *)
Class Located (M : Type) := {
  lineOf : M -> Z;
  endLineOf : M -> option Z;
  withLines : M -> Z -> option Z -> M;
  lineOf_withLines : forall m l e, lineOf (withLines m l e) = l;
  endLineOf_withLines : forall m l e, endLineOf (withLines m l e) = e
}.

#[export] Instance TextlintMessage_Located : Located TextlintMessage.t := {|
  lineOf := TextlintMessage.line;
  endLineOf := TextlintMessage.endLine;
  withLines m l e :=
    TextlintMessage.mk l (TextlintMessage.column m) e (TextlintMessage.endColumn m)
      (TextlintMessage.message m) (TextlintMessage.ruleId m)
      (TextlintMessage.severity m) (TextlintMessage.fix_ m);
  lineOf_withLines _ _ _ := eq_refl;
  endLineOf_withLines _ _ _ := eq_refl
|}.

#[export] Instance TextlintKernelMessage_Located : Located TextlintKernelMessage.t := {|
  lineOf := TextlintKernelMessage.line;
  endLineOf := TextlintKernelMessage.endLine;
  withLines m l e :=
    TextlintKernelMessage.mk l (TextlintKernelMessage.column m) e
      (TextlintKernelMessage.endColumn m)
      (TextlintKernelMessage.message m) (TextlintKernelMessage.ruleId m)
      (TextlintKernelMessage.severity m) (TextlintKernelMessage.fix_ m);
  lineOf_withLines _ _ _ := eq_refl;
  endLineOf_withLines _ _ _ := eq_refl
|}.

(** ** [Array.prototype.sort] with the comparator [(a, b) => a.line - b.line]

    The sort is stable, so its result is the one sorted arrangement that
    keeps messages of equal line in their original order; insertion from
    the right computes it. *)

Section SortByLine.
Context {M : Type} `{Located M}.

Fixpoint insertByLine (x : M) (l : list M) : list M :=
  match l with
  | [] => [x]
  | y :: l' =>
      if lineOf x <=? lineOf y then x :: y :: l'
      else y :: insertByLine x l'
  end.

Definition sortByLine (l : list M) : list M := foldr insertByLine [] l.

Definition lineLe (a b : M) : Prop := lineOf a <= lineOf b.

End SortByLine.

(** ** Promises *)

Inductive Error :=
| AnalyzerError (msg : string)
| ProcessingTimeout (ms : Z)
| ChunkTimeout (total : Z) (chunks : Z)
| TypeError (msg : string).

(** How an awaited promise ends: fulfilled, rejected, or never settled
    (the awaiting function then never returns). *)
Inductive Outcome (T : Type) :=
| Resolved (v : T)
| Rejected (e : Error)
| Unsettled.
Arguments Resolved {T} v.
Arguments Rejected {T} e.
Arguments Unsettled {T}.

(** What one call of an asynchronous analyzer does: it settles [delay]
    milliseconds after the call, or never. *)
Inductive Behaviour (T : Type) :=
| ResolvesAfter (delay : Z) (v : T)
| RejectsAfter (delay : Z) (e : Error)
| NeverSettles.
Arguments ResolvesAfter {T} delay v.
Arguments RejectsAfter {T} delay e.
Arguments NeverSettles {T}.

(** [await p] with no timer around it. *)
Definition await {T} (b : Behaviour T) : Outcome T :=
  match b with
  | ResolvesAfter _ v => Resolved v
  | RejectsAfter _ e => Rejected e
  | NeverSettles => Unsettled
  end.

(** A promise raced against a timer always settles. *)
Inductive Settled (T : Type) :=
| Fulfilled (v : T)
| Failed (e : Error).
Arguments Fulfilled {T} v.
Arguments Failed {T} e.

Definition settled {T} (s : Settled T) : Outcome T :=
  match s with
  | Fulfilled v => Resolved v
  | Failed e => Rejected e
  end.

(** The race [new Promise((resolve, reject) => { setTimeout(() =>
    reject(err), timeout); p.then(resolve).catch(reject) })] for a timer
    of [timeout / parts] milliseconds: the promise wins when it settles
    strictly before the timer is due ([delay < timeout / parts], compared
    as [delay * parts < timeout]); otherwise the timer rejects first and
    the later settlement is ignored. *)
Definition raceTimer {T} (timeout parts : Z) (err : Error) (b : Behaviour T)
  : Settled T :=
  match b with
  | ResolvesAfter d v => if d * parts <? timeout then Fulfilled v else Failed err
  | RejectsAfter d e => if d * parts <? timeout then Failed e else Failed err
  | NeverSettles => Failed err
  end.

(** ** [utils/Cache.ts]: keyed store with expiry *)

Module Cache.

Record CacheEntry (T : Type) := mkEntry {
  data : T;
  timestamp : Z;
  hash : option string
}.
Arguments mkEntry {T} data timestamp hash.
Arguments data {T} c.
Arguments timestamp {T} c.
Arguments hash {T} c.

(** The object state: the [Map] and the [ttl] fixed by the constructor. *)
Record t (T : Type) := mk {
  cache : gmap string (CacheEntry T);
  ttl : Z
}.
Arguments mk {T} cache ttl.
Arguments cache {T} t.
Arguments ttl {T} t.

Definition new {T} (ttl : Z) : t T := mk ∅ ttl.

Definition set {T} (now : Z) (key : string) (value : T) (hash : option string)
  (c : t T) : t T :=
  mk (<[key := mkEntry value now hash]> (cache c)) (ttl c).

Definition get {T} (now : Z) (key : string) (c : t T) : option T * t T :=
  match cache c !! key with
  | None => (None, c)
  | Some entry =>
      if ttl c <? now - timestamp entry
      then (None, mk (delete key (cache c)) (ttl c))
      else (Some (data entry), c)
  end.

Definition has {T} (now : Z) (key : string) (c : t T) : bool * t T :=
  match cache c !! key with
  | None => (false, c)
  | Some entry =>
      if ttl c <? now - timestamp entry
      then (false, mk (delete key (cache c)) (ttl c))
      else (true, c)
  end.

Definition invalidate {T} (key : string) (c : t T) : t T :=
  mk (delete key (cache c)) (ttl c).

Definition clear {T} (c : t T) : t T := mk ∅ (ttl c).

Definition isValidByHash {T} (now : Z) (key : string) (currentHash : string)
  (c : t T) : bool * t T :=
  match cache c !! key with
  | None => (false, c)
  | Some entry =>
      if negb (truthyStr (hash entry)) then (false, c)
      else if ttl c <? now - timestamp entry
      then (false, mk (delete key (cache c)) (ttl c))
      else (bool_decide (hash entry = Some currentHash), c)
  end.

(** [generateSimpleHash]: the 32-bit rolling hash with the length
    appended. [ToInt32] is the wrap-around of [<<] and [&]. *)
Definition toInt32 (z : Z) : Z := (z + 2 ^ 31) mod 2 ^ 32 - 2 ^ 31.

(** The loop over [content.charCodeAt(i)], on the code units that are
    still to come. *)
Fixpoint simpleHashLoop (units : list Z) (hash : Z) : Z :=
  match units with
  | [] => hash
  | char :: rest =>
      simpleHashLoop rest (toInt32 (toInt32 (Z.shiftl hash 5) - hash + char))
  end.

Definition showZ (z : Z) : string := NilZero.string_of_int (Z.to_int z).

(** [content.length] and [content.charCodeAt] count and read UTF-16 code
    units. *)
Definition generateSimpleHash (content : string) : string :=
  let units := Text.codeUnits content in
  if (length units =? 0)%nat then showZ 0
  else (showZ (simpleHashLoop units 0) ++ "_"
        ++ showZ (Z.of_nat (length units)))%string.

End Cache.

(** ** [utils/AdaptiveProcessor.ts]: strategies, chunking, chunk merge *)

Module AdaptiveProcessor.

(** [maxFileSize = None] stands for [Infinity]; [chunkSize = None] for an
    absent [chunkSize]. *)
Record ProcessingStrategy := mkStrategy {
  maxFileSize : option Z;
  enabledRules : list string;
  processingTimeout : Z;
  chunkSize : option Z
}.

Definition STRATEGIES : list ProcessingStrategy :=
  [ mkStrategy (Some 1000) ["all"%string] 15000 None;
    mkStrategy (Some 5000) ["all"%string] 30000 (Some 1000);
    mkStrategy (Some 10000) ["all"%string] 45000 (Some 500);
    mkStrategy None ["all"%string] 60000 (Some 200) ].

Definition lastStrategy : ProcessingStrategy :=
  mkStrategy None ["all"%string] 60000 (Some 200).

Definition below (lineCount : Z) (strategy : ProcessingStrategy) : bool :=
  match maxFileSize strategy with
  | Some m => lineCount <? m
  | None => true
  end.

Definition getOptimalStrategy (content : string) : ProcessingStrategy :=
  let lineCount := Z.of_nat (Text.lineCount content) in
  match List.find (below lineCount) STRATEGIES with
  | Some strategy => strategy
  | None => lastStrategy
  end.

Definition processWithTimeout {T} (processFunction : Behaviour T) (timeout : Z)
  : Outcome T :=
  settled (raceTimer timeout 1 (ProcessingTimeout timeout) processFunction).

(** The loop [for (i = 0; i < lines.length; i += chunkSize)] run for at
    most [fuel] iterations. *)
Fixpoint chunkLoop (fuel : nat) (lines : list string) (chunkSize i : Z)
  : list string :=
  match fuel with
  | O => []
  | S fuel' =>
      if i <? Z.of_nat (length lines)
      then Text.join (Text.slice lines i (i + chunkSize))
           :: chunkLoop fuel' lines chunkSize (i + chunkSize)
      else []
  end.

(** With a positive [chunkSize] the loop ends within [lines.length]
    iterations. With [chunkSize <= 0] the index never passes the length and
    the loop does not end: [None]. *)
Definition createProcessingChunks (content : string) (chunkSize : Z)
  : option (list string) :=
  let lines := Text.split content in
  if 0 <? chunkSize then Some (chunkLoop (length lines) lines chunkSize 0)
  else None.

(** The analyzer result (a [TextlintResult]); the merge reads it as [any]
    and guards against a missing [messages]. *)
Record LintResult (M : Type) := mkResult {
  messages : option (list M);
  filePath : option string
}.
Arguments mkResult {M} messages filePath.
Arguments messages {M} l.
Arguments filePath {M} l.

(** A value of type [any] handed over by the analyzer: [None] is
    [null]/[undefined]. *)
Definition AnyResult (M : Type) : Type := option (LintResult M).

Record ChunkResult (M : Type) := mkChunkResult {
  result : AnyResult M;
  lines : Z
}.
Arguments mkChunkResult {M} result lines.
Arguments result {M} c.
Arguments lines {M} c.

Section Merge.
Context {M : Type} `{Located M}.

(** [{...msg, line: msg.line + lineOffset,
      endLine: msg.endLine ? msg.endLine + lineOffset : undefined}] *)
Definition rebase (lineOffset : Z) (msg : M) : M :=
  withLines msg (lineOf msg + lineOffset)
    (if truthyNum (endLineOf msg)
     then (fun e => e + lineOffset) <$> endLineOf msg
     else None).

(** [result && result.messages] *)
Definition messagesOf (r : AnyResult M) : option (list M) :=
  match r with
  | Some res => messages res
  | None => None
  end.

(** The body of [for (const item of results)], with [lineOffset] threaded. *)
Fixpoint mergeLoop (results : list (ChunkResult M)) (lineOffset : Z) : list M :=
  match results with
  | [] => []
  | item :: rest =>
      (match messagesOf (result item) with
       | Some msgs => map (rebase lineOffset) msgs
       | None => []
       end) ++ mergeLoop rest (lineOffset + lines item)
  end.

(** [results[0]?.result?.filePath || ''] *)
Definition firstFilePath (results : list (ChunkResult M)) : string :=
  match results with
  | {| result := Some res |} :: _ =>
      if truthyStr (filePath res) then default EmptyString (filePath res)
      else EmptyString
  | _ => EmptyString
  end.

Definition mergeChunkResults (results : list (ChunkResult M)) : LintResult M :=
  match results with
  | [] => mkResult (Some []) None
  | _ :: _ =>
      mkResult (Some (sortByLine (mergeLoop results 0)))
               (Some (firstFilePath results))
  end.

(** The chunk loop of [processWithKuromojiOptimization]: each chunk is
    awaited under a timer of [processingTimeout / chunkData.length]; a
    chunk whose wait rejects is skipped. *)
Fixpoint runChunks (processFunction : string -> Behaviour (AnyResult M))
  (timeout count : Z) (chunkData : list (string * Z)) : list (ChunkResult M) :=
  match chunkData with
  | [] => []
  | (content, lines) :: rest =>
      match raceTimer timeout count (ChunkTimeout timeout count)
              (processFunction content) with
      | Fulfilled result =>
          mkChunkResult result lines
          :: runChunks processFunction timeout count rest
      | Failed _ => runChunks processFunction timeout count rest
      end
  end.

Definition chunkDataOf (chunks : list string) : list (string * Z) :=
  map (fun chunk => (chunk, Z.of_nat (Text.lineCount chunk))) chunks.

Definition processWithKuromojiOptimization (content : string)
  (processFunction : string -> Behaviour (AnyResult M))
  (strategy : ProcessingStrategy) : Outcome (AnyResult M) :=
  let lineCount := Z.of_nat (Text.lineCount content) in
  if lineCount <? 1000 then await (processFunction content)
  else if truthyNum (chunkSize strategy) then
    match createProcessingChunks content (default 0 (chunkSize strategy)) with
    | None => Unsettled
    | Some chunks =>
        let chunkData := chunkDataOf chunks in
        let results :=
          runChunks processFunction (processingTimeout strategy)
            (Z.of_nat (length chunkData)) chunkData in
        Resolved (Some (mergeChunkResults results))
    end
  else
    settled (raceTimer (processingTimeout strategy) 1
               (ProcessingTimeout (processingTimeout strategy))
               (processFunction content)).

End Merge.

End AdaptiveProcessor.

(** ** [utils/DifferentialProcessor.ts]: changed regions and the
       region-limited re-analysis *)

Module DifferentialProcessor.

(** [{ start, end }], inclusive 0-based line indices. *)
Record Region := mkRegion { start : Z; end_ : Z }.

Record CachedResult := mkCached {
  content : string;
  messages : list TextlintMessage.t;
  timestamp : Z
}.

(** The state of the scan loop of [findChangedRegions]. *)
Record Scan := mkScan {
  changedRegions : list Region;
  currentRegion : option Region
}.

(** One iteration of the scan loop, for line index [i]. *)
Definition scanLine (oldLines newLines : list string) (contextLines : Z)
  (st : Scan) (i : nat) : Scan :=
  let oldLine := Text.lineAt oldLines i in
  let newLine := Text.lineAt newLines i in
  if negb (String.eqb oldLine newLine) then
    match currentRegion st with
    | None =>
        mkScan (changedRegions st)
          (Some (mkRegion (Z.max 0 (Z.of_nat i - contextLines))
                          (Z.of_nat i + contextLines)))
    | Some r =>
        mkScan (changedRegions st)
          (Some (mkRegion (start r) (Z.of_nat i + contextLines)))
    end
  else
    match currentRegion st with
    | Some r =>
        if end_ r <? Z.of_nat i
        then mkScan (changedRegions st ++ [r]) None
        else st
    | None => st
    end.

Definition scan (oldLines newLines : list string) (contextLines : Z)
  (indices : list nat) (st : Scan) : Scan :=
  fold_left (scanLine oldLines newLines contextLines) indices st.

(** [if (currentRegion) changedRegions.push(currentRegion)] *)
Definition closeScan (st : Scan) : list Region :=
  match currentRegion st with
  | Some r => changedRegions st ++ [r]
  | None => changedRegions st
  end.

(** The loop of [mergeOverlappingRegions]; [last] is
    [merged[merged.length - 1]], the regions before it are already final.
    (The source widens [last] in place; the widened object is only read
    through [merged].) *)
Fixpoint mergeFrom (last : Region) (regions : list Region) : list Region :=
  match regions with
  | [] => [last]
  | current :: rest =>
      if start current <=? end_ last
      then mergeFrom (mkRegion (start last) (Z.max (end_ last) (end_ current))) rest
      else last :: mergeFrom current rest
  end.

Definition mergeOverlappingRegions (regions : list Region) : list Region :=
  match regions with
  | [] => []
  | first :: rest => mergeFrom first rest
  end.

Definition findChangedRegions (oldContent newContent : string)
  (contextLines : Z) : list Region :=
  let oldLines := Text.split oldContent in
  let newLines := Text.split newContent in
  let n := Nat.max (length oldLines) (length newLines) in
  mergeOverlappingRegions
    (closeScan (scan oldLines newLines contextLines (seq 0 n) (mkScan [] None))).

Definition extractRegionContent (content : string) (regions : list Region)
  : string :=
  let lines := Text.split content in
  Text.join
    (concat (map (fun region => Text.slice lines (start region) (end_ region + 1))
                 regions)).

(** The inner [for (const region of regions)] of [adjustLineNumbers]. *)
Fixpoint adjustLine (line : Z) (regions : list Region) : Z :=
  match regions with
  | [] => line
  | region :: rest =>
      if line <=? end_ region - start region + 1
      then start region + line
      else adjustLine line rest
  end.

Definition adjustMessage (regions : list Region) (message : TextlintMessage.t)
  : TextlintMessage.t :=
  let adjustedLine := adjustLine (TextlintMessage.line message) regions in
  withLines message adjustedLine
    (if truthyNum (TextlintMessage.endLine message)
     then Some adjustedLine else None).

Definition adjustLineNumbers (messages : list TextlintMessage.t)
  (regions : list Region) : list TextlintMessage.t :=
  map (adjustMessage regions) messages.

Definition inRegion (line : Z) (region : Region) : bool :=
  (start region <=? line) && (line <=? end_ region).

Definition outsideRegions (changedRegions : list Region)
  (message : TextlintMessage.t) : bool :=
  negb (existsb (inRegion (TextlintMessage.line message)) changedRegions).

Definition mergeResults (oldMessages newMessages : list TextlintMessage.t)
  (changedRegions : list Region) : list TextlintMessage.t :=
  sortByLine (List.filter (outsideRegions changedRegions) oldMessages
              ++ newMessages).

(** [changedRegions.reduce((sum, region) => sum + (region.end -
    region.start + 1), 0)] *)
Definition changedLineCount (changedRegions : list Region) : Z :=
  fold_left (fun sum region => sum + (end_ region - start region + 1))
    changedRegions 0.

(** [changedLines / totalLines > 0.5] for a positive [totalLines],
    compared without the division. *)
Definition majorityChanged (changedLines totalLines : Z) : bool :=
  totalLines <? 2 * changedLines.

(** What one call of [processChangedRegionsOnly] does: the texts handed
    to [lintFunction], in order; how the returned promise ends; and the
    module-level [previousResults] map afterwards. *)
Record Run := mkRun {
  calls : list string;
  returned : Outcome (list TextlintMessage.t);
  previousResults : gmap string CachedResult
}.

(** An awaited [lintFunction] that rejects makes the call reject, and one
    that never settles leaves the call pending; the store is then as it was. *)
Definition processChangedRegionsOnly (now : Z)
  (store : gmap string CachedResult) (filePath newContent : string)
  (lintFunction : string -> Outcome (list TextlintMessage.t)) : Run :=
  match store !! filePath with
  | None =>
      match lintFunction newContent with
      | Resolved messages =>
          mkRun [newContent] (Resolved messages)
            (<[filePath := mkCached newContent messages now]> store)
      | Rejected e => mkRun [newContent] (Rejected e) store
      | Unsettled => mkRun [newContent] Unsettled store
      end
  | Some cached =>
      let changedRegions := findChangedRegions (content cached) newContent 5 in
      if (length changedRegions =? 0)%nat
      then mkRun [] (Resolved (messages cached)) store
      else
        let totalLines := Z.of_nat (Text.lineCount newContent) in
        let changedLines := changedLineCount changedRegions in
        if majorityChanged changedLines totalLines
        then
          match lintFunction newContent with
          | Resolved messages =>
              mkRun [newContent] (Resolved messages)
                (<[filePath := mkCached newContent messages now]> store)
          | Rejected e => mkRun [newContent] (Rejected e) store
          | Unsettled => mkRun [newContent] Unsettled store
          end
        else
          let regionContent := extractRegionContent newContent changedRegions in
          match lintFunction regionContent with
          | Resolved regionMessages =>
              let adjustedMessages :=
                adjustLineNumbers regionMessages changedRegions in
              let mergedMessages :=
                mergeResults (messages cached) adjustedMessages changedRegions in
              mkRun [regionContent] (Resolved mergedMessages)
                (<[filePath := mkCached newContent mergedMessages now]> store)
          | Rejected e => mkRun [regionContent] (Rejected e) store
          | Unsettled => mkRun [regionContent] Unsettled store
          end
  end.

Definition clearCache (filePath : option string)
  (store : gmap string CachedResult) : gmap string CachedResult :=
  if truthyStr filePath then delete (default EmptyString filePath) store
  else ∅.

End DifferentialProcessor.

(** ** [TextlintHighlightPlugin.ts]: one analysis cycle

    [lintCurrentFile] reads the active document, looks its digest up in
    the result cache and, on a miss, awaits the analyzer and applies what
    it returns. While the analyzer is awaited the editor keeps running and
    the document may be edited, so the cycle is split at that [await]:
    [lintCurrentFile_start] runs up to it, [lintCurrentFile_complete] runs
    from the moment the analyzer has settled. *)

Module TextlintHighlightPlugin.

Section Cycle.

(** [generateContentHash]: SHA-256 where available, else
    [Cache.generateSimpleHash]. *)
Variable generateContentHash : string -> string.

(** The analyzer handed to [processWithKuromojiOptimization]:
    [kernel.lintText(text, lintConfig)], for the configuration generated
    from the rules that [ruleLoader.loadRules] returned. *)
Variable lintText :
  string -> Behaviour (AdaptiveProcessor.AnyResult TextlintKernelMessage.t).

(** The plugin fields the cycle reads and writes, and the display:
    [highlights] is what [editorExtension.updateHighlights] last received,
    [view] what [updateTextlintView] last received, [notices] the error
    notices shown. *)
Record Plugin := mkPlugin {
  lastProcessedFile : option string;
  lastContentHash : option string;
  resultCache : Cache.t (list TextlintMessage.t);
  highlights : list TextlintMessage.t;
  view : option (list TextlintMessage.t * string);
  notices : list Error
}.

Definition applyResults (messages : list TextlintMessage.t) (file : string)
  (p : Plugin) : Plugin :=
  mkPlugin (lastProcessedFile p) (lastContentHash p) (resultCache p)
    messages (Some (messages, file)) (notices p).

Definition withCache (c : Cache.t (list TextlintMessage.t)) (p : Plugin)
  : Plugin :=
  mkPlugin (lastProcessedFile p) (lastContentHash p) c
    (highlights p) (view p) (notices p).

Definition withLast (file contentHash : string) (p : Plugin) : Plugin :=
  mkPlugin (Some file) (Some contentHash) (resultCache p)
    (highlights p) (view p) (notices p).

Definition notice (e : Error) (p : Plugin) : Plugin :=
  mkPlugin (lastProcessedFile p) (lastContentHash p) (resultCache p)
    (highlights p) (view p) (e :: notices p).

(** [`${file.path}_${contentHash}`] *)
Definition cacheKey (file contentHash : string) : string :=
  (file ++ "_" ++ contentHash)%string.

(** The kernel message as a [TextlintMessage], with
    [ruleId: msg.ruleId || 'unknown']. *)
Definition fromKernel (msg : TextlintKernelMessage.t) : TextlintMessage.t :=
  TextlintMessage.mk
    (TextlintKernelMessage.line msg) (TextlintKernelMessage.column msg)
    (TextlintKernelMessage.endLine msg) (TextlintKernelMessage.endColumn msg)
    (TextlintKernelMessage.message msg)
    (if truthyStr (TextlintKernelMessage.ruleId msg)
     then default EmptyString (TextlintKernelMessage.ruleId msg)
     else "unknown"%string)
    (TextlintKernelMessage.severity msg) (TextlintKernelMessage.fix_ msg).

(** Where the cycle stands when it first waits for the analyzer: it has
    already returned ([Finished]), or it awaits the analysis of [content],
    whose digest is [contentHash] ([Analysing]). *)
Inductive Started :=
| Finished (p : Plugin)
| Analysing (p : Plugin) (file content contentHash : string).

Definition lintCurrentFile_start (now : Z) (activeFile : option string)
  (vault : gmap string string) (p : Plugin) : Started :=
  match activeFile with
  | None => Finished p
  | Some file =>
      match vault !! file with
      | None => Finished (notice (AnalyzerError "read failed") p)
      | Some content =>
          let contentHash := generateContentHash content in
          let key := cacheKey file contentHash in
          if bool_decide (lastProcessedFile p = Some file)
             && bool_decide (lastContentHash p = Some contentHash)
          then
            let '(cachedResult, c) := Cache.get now key (resultCache p) in
            match cachedResult with
            | Some cached => Finished (applyResults cached file (withCache c p))
            | None => Finished (applyResults [] file (withCache c p))
            end
          else
            let '(valid, c) := Cache.isValidByHash now key contentHash (resultCache p) in
            let '(cachedResult, c') :=
              if valid then Cache.get now key c else (None, c) in
            match cachedResult with
            | Some cached =>
                Finished (applyResults cached file
                            (withLast file contentHash (withCache c' p)))
            | None =>
                Analysing (withLast file contentHash (withCache c' p))
                  file content contentHash
            end
      end
  end.

(** From the settled analysis to the end of the cycle. Nothing here reads
    the document again. *)
Definition lintCurrentFile_complete (now : Z) (file contentHash : string)
  (analysis : Outcome (AdaptiveProcessor.AnyResult TextlintKernelMessage.t))
  (p : Plugin) : Plugin :=
  match analysis with
  | Resolved (Some {| AdaptiveProcessor.messages := Some found |}) =>
      let messages := map fromKernel found in
      let c := Cache.set now (cacheKey file contentHash) messages
                 (Some contentHash) (resultCache p) in
      applyResults messages file (withCache c p)
  | Resolved _ => notice (TypeError "result.messages") p
  | Rejected e => notice e p
  | Unsettled => p
  end.

(** A whole cycle: [vaultAtStart] is the vault when the cycle reads the
    document, [vaultAtCompletion] the vault when the analysis has settled
    (the document may have been edited in between). *)
Definition lintCurrentFile (nowAtStart nowAtCompletion : Z)
  (activeFile : option string)
  (vaultAtStart vaultAtCompletion : gmap string string)
  (p : Plugin) : Plugin :=
  match lintCurrentFile_start nowAtStart activeFile vaultAtStart p with
  | Finished p' => p'
  | Analysing p' file content contentHash =>
      lintCurrentFile_complete nowAtCompletion file contentHash
        (AdaptiveProcessor.processWithKuromojiOptimization content lintText
           (AdaptiveProcessor.getOptimalStrategy content))
        p'
  end.

End Cycle.

End TextlintHighlightPlugin.

(** ** [TextlintHighlightPlugin.ts]: cache maintenance

    [saveSettings] and [clearCache], as far as they touch the fields of the
    analysis cycle. Both end by clearing the result cache; [clearCache]
    also forgets the last processed file and digest, [saveSettings] does
    not, and goes on to a new cycle ([lintCurrentFileImmediately]). *)

Module PluginMaintenance.
Import TextlintHighlightPlugin.

(** The cache part of [saveSettings]: [this.resultCache.clear()]. *)
Definition saveSettings_clear (p : Plugin) : Plugin :=
  withCache (Cache.clear (resultCache p)) p.

(** [saveSettings]: the caches are cleared and the cycle is run again,
    with the analyzer for the new settings. *)
Definition saveSettings (generateContentHash : string -> string)
  (lintText : string ->
              Behaviour (AdaptiveProcessor.AnyResult TextlintKernelMessage.t))
  (nowAtStart nowAtCompletion : Z) (activeFile : option string)
  (vaultAtStart vaultAtCompletion : gmap string string) (p : Plugin) : Plugin :=
  lintCurrentFile generateContentHash lintText nowAtStart nowAtCompletion
    activeFile vaultAtStart vaultAtCompletion (saveSettings_clear p).

(** [clearCache] *)
Definition clearCache (p : Plugin) : Plugin :=
  mkPlugin None None (Cache.clear (resultCache p))
    (highlights p) (view p) (notices p).

End PluginMaintenance.

(** ** [utils/MemoryManager.ts]: debouncer and throttler

    The closures returned by [createOptimizedDebouncer] and
    [createThrottler], run on an event loop in which the only events are
    the calls of the closure, at the given times, and the expiry of the
    one timer the closure has set. A timer that is due at or before the
    time of a call fires before the call. *)

Module MemoryManager.




(** The closure state of [createThrottler]: [canRun], [queued], and the
    due time of the timer while it has not fired. *)
Record Throttle := mkThrottle {
  canRun : bool;
  queued : bool;
  timer : option Z
}.

(** The timer callback: [canRun = true; if (queued) { queued = false;
    callback(); }], at time [due]. The result lists the runs of
    [callback]. *)
Definition throttleExpire (due : Z) (st : Throttle) : list Z * Throttle :=
  if queued st then ([due], mkThrottle true false None)
  else ([], mkThrottle true false None).

(** The closure body, called at time [now]. *)
Definition throttleCall (interval now : Z) (st : Throttle) : list Z * Throttle :=
  if negb (canRun st) then ([], mkThrottle (canRun st) true (timer st))
  else ([now], mkThrottle false (queued st) (Some (now + interval))).

(** Let the timer fire if it is due at [now]. *)
Definition throttleAdvance (now : Z) (st : Throttle) : list Z * Throttle :=
  match timer st with
  | Some due => if due <=? now then throttleExpire due st else ([], st)
  | None => ([], st)
  end.

Fixpoint throttler (interval : Z) (st : Throttle) (calls : list Z) : list Z :=
  match calls with
  | [] =>
      match timer st with
      | Some due => fst (throttleExpire due st)
      | None => []
      end
  | now :: later =>
      let '(fired, st1) := throttleAdvance now st in
      let '(ran, st2) := throttleCall interval now st1 in
      fired ++ ran ++ throttler interval st2 later
  end.

Definition createThrottler (interval : Z) (calls : list Z) : list Z :=
  throttler interval (mkThrottle true false None) calls.

End MemoryManager.

(** ** [utils/Cache.ts]: statistics and the removal of expired entries *)

Module CacheStats.

(** [cleanup]: every entry that has expired at [now] is deleted. Deleting
    from a [Map] while iterating over it still visits every remaining
    entry. *)
Definition cleanup {T} (now : Z) (c : Cache.t T) : Cache.t T :=
  Cache.mk
    (filter (fun kv => (Cache.ttl c <? now - Cache.timestamp kv.2) = false)
       (Cache.cache c))
    (Cache.ttl c).

(** [getStats]: the size and the keys after [cleanup]. The keys are kept
    as a set; the array of the source lists them in insertion order. *)
Record Stats := mkStats {
  size_ : nat;
  keys : gset string
}.

Definition getStats {T} (now : Z) (c : Cache.t T) : Stats * Cache.t T :=
  let c' := cleanup now c in
  (mkStats (size (Cache.cache c')) (dom (Cache.cache c')), c').

End CacheStats.

(** ** [rules/RuleLoader.ts]: the settings key and the rule memo *)

Record TextlintPluginSettings := mkSettings {
  useTechnicalWritingPreset : bool;
  useSpacingPreset : bool;
  useJtfStylePreset : bool;
  useCustomRules : bool;
  enableDebugLog : bool;
  useKuromoji : bool;
  useNoDroppingI : bool;
  useNoInsertDroppingSa : bool;
  useNoDoubledJoshi : bool;
  useNoMixedZenkakuHankakuAlphabet : bool;
  usePreferTariTari : bool;
  useWriteGood : bool;
  useJaNoOrthographicVariants : bool;
  useNoMixDearuDesumasu : bool;
  useNoStartDuplicatedConjunction : bool;
  useDateWeekdayMismatch : bool
}.

(** ** [utils/AdaptiveProcessor.ts]: the settings used for a document *)

Module AdaptiveRuleSet.

Definition shouldUseKuromoji (content : string)
  (settings : TextlintPluginSettings) : bool :=
  useKuromoji settings.

(** [{ ...settings }] with [useKuromoji] assigned. *)
Definition getOptimizedRuleSet (content : string)
  (settings : TextlintPluginSettings) : TextlintPluginSettings :=
  let optimizedSettings := settings in
  mkSettings
    (useTechnicalWritingPreset optimizedSettings)
    (useSpacingPreset optimizedSettings)
    (useJtfStylePreset optimizedSettings)
    (useCustomRules optimizedSettings)
    (enableDebugLog optimizedSettings)
    (shouldUseKuromoji content settings)
    (useNoDroppingI optimizedSettings)
    (useNoInsertDroppingSa optimizedSettings)
    (useNoDoubledJoshi optimizedSettings)
    (useNoMixedZenkakuHankakuAlphabet optimizedSettings)
    (usePreferTariTari optimizedSettings)
    (useWriteGood optimizedSettings)
    (useJaNoOrthographicVariants optimizedSettings)
    (useNoMixDearuDesumasu optimizedSettings)
    (useNoStartDuplicatedConjunction optimizedSettings)
    (useDateWeekdayMismatch optimizedSettings).

End AdaptiveRuleSet.

Module RuleLoader.

(** [parts.join(sep)] *)
Fixpoint joinWith (sep : string) (parts : list string) : string :=
  match parts with
  | [] => EmptyString
  | part :: rest =>
      match rest with
      | [] => part
      | _ :: _ => (part ++ sep ++ joinWith sep rest)%string
      end
  end.

(** [flag ? name : ''] *)
Definition part (flag : bool) (name : string) : string :=
  if flag then name else EmptyString.

Definition keyParts (settings : TextlintPluginSettings) : list string :=
  [ part (useTechnicalWritingPreset settings) "tech";
    part (useSpacingPreset settings) "space";
    part (useJtfStylePreset settings) "jtf";
    part (useCustomRules settings) "ai";
    part (useNoDroppingI settings) "dropi";
    part (useNoInsertDroppingSa settings) "dropsa";
    part (useNoDoubledJoshi settings) "joshi";
    part (useNoMixedZenkakuHankakuAlphabet settings) "alpha";
    part (usePreferTariTari settings) "tari";
    part (useWriteGood settings) "writegood";
    part (useJaNoOrthographicVariants settings) "orthographic";
    part (useNoMixDearuDesumasu settings) "mixstyle";
    part (useNoStartDuplicatedConjunction settings) "conjunction";
    part (useDateWeekdayMismatch settings) "dateweekday" ].

(** [[...].filter(Boolean).join('_') || 'empty'] *)
Definition generateSettingsKey (settings : TextlintPluginSettings) : string :=
  let joined :=
    joinWith "_" (List.filter (fun p => negb (String.eqb p EmptyString))
                    (keyParts settings)) in
  if String.eqb joined EmptyString then "empty"%string else joined.

Section Memo.

(** A loaded rule; and what the loaders and [validateRules] produce for
    given settings when the memo misses (the preset and rule modules are
    outside the repository). *)
Variable TextlintRule : Type.
Variable loadValidRules : TextlintPluginSettings -> list TextlintRule.

(** What [loadRules] returns: the rules, whether the loaders ran, and the
    memo afterwards. *)
Record Loaded := mkLoaded {
  rules : list TextlintRule;
  loadersRan : bool;
  rulesCache : Cache.t (list TextlintRule)
}.

Definition loadRules (now : Z) (settings : TextlintPluginSettings)
  (cache : Cache.t (list TextlintRule)) : Loaded :=
  let settingsKey := generateSettingsKey settings in
  let '(present, cache1) := Cache.has now settingsKey cache in
  let '(cachedRules, cache2) :=
    if present then Cache.get now settingsKey cache1 else (None, cache1) in
  match cachedRules with
  | Some cached => mkLoaded cached false cache2
  | None =>
      let validRules := loadValidRules settings in
      mkLoaded validRules true (Cache.set now settingsKey validRules None cache2)
  end.

End Memo.

End RuleLoader.

(** ** [editor/EditorExtension.ts]: the end of the highlighted word

    A line is a sequence of UTF-16 code units. *)

Module EditorExtension.

(** [/\s/.test(c)]: the white space and line terminator code units. *)
Definition isSpace (c : Z) : bool :=
  ((9 <=? c) && (c <=? 13)) || (c =? 32) || (c =? 160) || (c =? 5760)
  || ((8192 <=? c) && (c <=? 8202)) || (c =? 8232) || (c =? 8233)
  || (c =? 8239) || (c =? 8287) || (c =? 12288) || (c =? 65279).

(** The characters at which the word ends: space, line feed, the
    ideographic comma, full stop and space, [!], [?], and the full-width
    colon and semicolon. *)
Definition isBoundary (c : Z) : bool :=
  (c =? 32) || (c =? 10) || (c =? 12289) || (c =? 12290) || (c =? 12288)
  || (c =? 33) || (c =? 63) || (c =? 65306) || (c =? 65307).

(** [lineText[i]]; [None] is [undefined] (index out of the line). *)
Definition charAt (lineText : list Z) (i : Z) : option Z :=
  if i <? 0 then None else lineText !! Z.to_nat i.

(** [while (endIndex < maxLength && /\s/.test(lineText[endIndex]))
    endIndex++], for at most [fuel] steps. [/\s/.test(undefined)] is
    false. *)
Fixpoint skipSpace (fuel : nat) (lineText : list Z) (maxLength endIndex : Z) : Z :=
  match fuel with
  | O => endIndex
  | S fuel' =>
      if (endIndex <? maxLength)
         && from_option isSpace false (charAt lineText endIndex)
      then skipSpace fuel' lineText maxLength (endIndex + 1)
      else endIndex
  end.

(** [while (endIndex < maxLength) { if (boundary) break; endIndex++ }],
    for at most [fuel] steps. *)
Fixpoint skipWord (fuel : nat) (lineText : list Z) (maxLength endIndex : Z) : Z :=
  match fuel with
  | O => endIndex
  | S fuel' =>
      if (endIndex <? maxLength)
         && negb (from_option isBoundary false (charAt lineText endIndex))
      then skipWord fuel' lineText maxLength (endIndex + 1)
      else endIndex
  end.

(** Each loop runs at most [maxLength - endIndex] times, so that much
    fuel lets it end by its own test. *)
Definition findWordEnd (lineText : list Z) (startIndex : Z) : Z :=
  let maxLength := Z.min (Z.of_nat (length lineText)) (startIndex + 20) in
  let afterSpace :=
    skipSpace (Z.to_nat (maxLength - startIndex)) lineText maxLength startIndex in
  let endIndex :=
    skipWord (Z.to_nat (maxLength - afterSpace)) lineText maxLength afterSpace in
  Z.max endIndex (startIndex + 1).

End EditorExtension.

(** Whether a promise was fulfilled. *)
Definition isResolved {T} (o : Outcome T) : bool :=
  match o with
  | Resolved _ => true
  | _ => false
  end.

(** ** Stated properties, invariants and sample inputs

    Properties in the wording of the specification, to be compared with
    what the embedded code does; the invariants of the loops; and the
    documents and synthetic analyzers on which the code is run below. *)

(** Expiry as the specification has it: an expired entry is evicted and
    reported absent by [get] and by [isValidByHash], whatever its digest. *)
Definition evictsWhenExpired {T} (now : Z) (key currentHash : string)
  (c : Cache.t T) : Prop :=
  forall entry,
    Cache.cache c !! key = Some entry ->
    now - Cache.timestamp entry > Cache.ttl c ->
    Cache.get now key c = (None, Cache.invalidate key c) /\
    Cache.isValidByHash now key currentHash c = (false, Cache.invalidate key c).

(** Sample documents: [n] copies of a line, with some lines replaced. *)
Definition document (n : nat) (line : string) : list string := replicate n line.

Fixpoint replaceLines (edits : list (nat * string)) (lines : list string)
  : list string :=
  match edits with
  | [] => lines
  | (i, l) :: rest => replaceLines rest (<[i := l]> lines)
  end.

(** A finding on [line], as a synthetic analyzer reports it. *)
Definition finding (line : Z) (endLine : option Z) : TextlintMessage.t :=
  TextlintMessage.mk line 1 endLine None "found" "rule" 2 None.

(** A hundred-line snapshot of which the first sixty lines are rewritten:
    the changed region is [[0, 64]], 65 of 100 lines. *)
Definition hundredLines : string := Text.join (document 100 "same").

Definition sixtyChanged : string :=
  Text.join (replaceLines (map (fun i => (i, "changed"%string)) (seq 0 60))
               (document 100 "same")).

(** Line [i] differs between the two texts (a line missing on one side
    reads as the empty string). *)
Definition differs (oldLines newLines : list string) (i : nat) : Prop :=
  Text.lineAt oldLines i <> Text.lineAt newLines i.

(** What the scan gives a region: it starts [contextLines] lines before a
    differing line [d1], not below line 0, and ends [contextLines] lines
    after a differing line [d2]. *)
Definition padded (oldLines newLines : list string) (contextLines : Z)
  (r : DifferentialProcessor.Region) : Prop :=
  exists d1 d2 : nat,
    differs oldLines newLines d1 /\ differs oldLines newLines d2 /\
    (d1 <= d2)%nat /\
    DifferentialProcessor.start r = Z.max 0 (Z.of_nat d1 - contextLines) /\
    DifferentialProcessor.end_ r = Z.of_nat d2 + contextLines.

(** [a] ends before [b] starts. *)
Definition separated (a b : DifferentialProcessor.Region) : Prop :=
  DifferentialProcessor.end_ a < DifferentialProcessor.start b.

(** The region as stated: padded on both sides and clamped to the
    document, whose last line index is [lastLine]. *)
Definition paddedAndClamped (oldLines newLines : list string)
  (contextLines : Z) (r : DifferentialProcessor.Region) : Prop :=
  let lastLine := Z.of_nat (Nat.max (length oldLines) (length newLines)) - 1 in
  exists d1 d2 : nat,
    differs oldLines newLines d1 /\ differs oldLines newLines d2 /\
    (d1 <= d2)%nat /\
    DifferentialProcessor.start r = Z.max 0 (Z.of_nat d1 - contextLines) /\
    DifferentialProcessor.end_ r = Z.min lastLine (Z.of_nat d2 + contextLines).

(** The list as stated: no two of its regions overlap or touch. *)
Definition neitherOverlapNorTouch (rs : list DifferentialProcessor.Region)
  : Prop :=
  forall (i j : nat) a b,
    i <> j -> rs !! i = Some a -> rs !! j = Some b ->
    DifferentialProcessor.end_ a + 1 < DifferentialProcessor.start b \/
    DifferentialProcessor.end_ b + 1 < DifferentialProcessor.start a.

(** What holds of the scan state of [findChangedRegions] once the lines
    below [k] are scanned: the closed regions are padded, and so is the
    open one, around differing lines below [k]. *)
Definition scanned (oldLines newLines : list string) (contextLines : Z)
  (k : nat) (st : DifferentialProcessor.Scan) : Prop :=
  Forall (padded oldLines newLines contextLines)
    (DifferentialProcessor.changedRegions st) /\
  forall r, DifferentialProcessor.currentRegion st = Some r ->
    exists d1 d2 : nat,
      differs oldLines newLines d1 /\ differs oldLines newLines d2 /\
      (d1 <= d2 < k)%nat /\
      DifferentialProcessor.start r = Z.max 0 (Z.of_nat d1 - contextLines) /\
      DifferentialProcessor.end_ r = Z.of_nat d2 + contextLines.

(** Line [d] lies in region [r]. *)
Definition covers (d : nat) (r : DifferentialProcessor.Region) : Prop :=
  DifferentialProcessor.start r <= Z.of_nat d <= DifferentialProcessor.end_ r.

Definition startLe (a b : DifferentialProcessor.Region) : Prop :=
  DifferentialProcessor.start a <= DifferentialProcessor.start b.

(** What holds of the regions found so far ([closeScan], the open region
    included) once the lines below [k] are scanned: they are in the order
    of their starts, none reaches further than the padding of line [k]
    allows, and every differing line below [k] lies in one of them. *)
Definition covering (oldLines newLines : list string) (contextLines : Z)
  (k : nat) (st : DifferentialProcessor.Scan) : Prop :=
  let found := DifferentialProcessor.closeScan st in
  StronglySorted startLe found /\
  Forall (fun r =>
            DifferentialProcessor.start r <= Z.max 0 (Z.of_nat k - contextLines) /\
            DifferentialProcessor.end_ r < Z.of_nat k + contextLines) found /\
  forall d : nat, (d < k)%nat -> differs oldLines newLines d ->
    Exists (covers d) found.

(** Twelve lines of which the first and the last are rewritten. *)
Definition twelveLines : string := Text.join (document 12 "same").

Definition firstAndLastChanged : string :=
  Text.join (replaceLines [(0%nat, "changed"%string); (11%nat, "changed"%string)]
               (document 12 "same")).

(** A synthetic analyzer: it reports every line that reads [BAD], at the
    1-based position of the line in the text it is given. *)
Fixpoint markFrom (lineNo : Z) (lines : list string) : list TextlintMessage.t :=
  match lines with
  | [] => []
  | l :: rest =>
      (if String.eqb l "BAD" then [finding lineNo None] else [])
      ++ markFrom (lineNo + 1) rest
  end.

Definition markBad (text : string) : Outcome (list TextlintMessage.t) :=
  Resolved (markFrom 1 (Text.split text)).

(** A hundred lines in which lines 11 and 76 (indices 10 and 75) turn bad. *)
Definition twoBadLines : string :=
  Text.join (replaceLines [(10%nat, "BAD"%string); (75%nat, "BAD"%string)]
               (document 100 "same")).

(** A hundred lines in which line 51 (index 50) turns bad. *)
Definition oneBadLine : string :=
  Text.join (replaceLines [(50%nat, "BAD"%string)] (document 100 "same")).

(** The chunk merge in closed form. [precedingLines results k] is the
    number of lines of the chunks before the [k]-th; [rebasedFindings]
    lists, chunk after chunk, each reported finding moved down by the
    lines that precede its chunk. *)
Definition precedingLines {M} (results : list (AdaptiveProcessor.ChunkResult M))
  (k : nat) : Z :=
  foldr Z.add 0 (map AdaptiveProcessor.lines (take k results)).

Definition rebasedFindings {M} `{Located M}
  (results : list (AdaptiveProcessor.ChunkResult M)) : list M :=
  concat (imap (fun k item =>
                  map (AdaptiveProcessor.rebase (precedingLines results k))
                    (default [] (AdaptiveProcessor.messagesOf
                                   (AdaptiveProcessor.result item))))
               results).

(** The chunk merge as stated. [movedDown lineOffset msg] is the finding
    [msg] with [lineOffset] added to its line and to its end line, a
    finding without end line (or with end line 0, which reads as none)
    keeping none; [movedFindings] lists, chunk after chunk, each reported
    finding moved down by the lines of the chunks before its own. *)
Definition movedDown {M} `{Located M} (lineOffset : Z) (msg : M) : M :=
  withLines msg (lineOf msg + lineOffset)
    (match endLineOf msg with
     | Some e => if e =? 0 then None else Some (e + lineOffset)
     | None => None
     end).

Definition movedFindings {M} `{Located M}
  (results : list (AdaptiveProcessor.ChunkResult M)) : list M :=
  concat (imap (fun k item =>
                  map (movedDown (precedingLines results k))
                    (default [] (AdaptiveProcessor.messagesOf
                                   (AdaptiveProcessor.result item))))
               results).

(** The chunk results of a run in which the wait for every chunk is
    fulfilled, the one for [chunk] with [res chunk]. *)
Definition chunkResults {M} (res : string -> AdaptiveProcessor.AnyResult M)
  (chunks : list string) : list (AdaptiveProcessor.ChunkResult M) :=
  map (fun chunk =>
         AdaptiveProcessor.mkChunkResult (res chunk)
           (Z.of_nat (Text.lineCount chunk))) chunks.

(** A finding of the kernel on [line]. *)
Definition kernelFinding (line : Z) : TextlintKernelMessage.t :=
  TextlintKernelMessage.mk line 1 None None "found" (Some "rule"%string) 2 None.

(** A synthetic analyzer: one finding, on line 1 of whatever it is given,
    after [delay] milliseconds. *)
Definition reportLineOne (delay : Z) (text : string)
  : Behaviour (AdaptiveProcessor.AnyResult TextlintKernelMessage.t) :=
  ResolvesAfter delay
    (Some (AdaptiveProcessor.mkResult (Some [kernelFinding 1]) None)).

(** A finding of the kernel from [line] to [endLine]. *)
Definition kernelSpan (line endLine : Z) : TextlintKernelMessage.t :=
  TextlintKernelMessage.mk line 1 (Some endLine) (Some 5) "found"
    (Some "rule"%string) 2 None.

(** A synthetic analyzer: one finding, from line 1 to line 2 of whatever
    it is given, at once. *)
Definition reportSpan (text : string)
  : Behaviour (AdaptiveProcessor.AnyResult TextlintKernelMessage.t) :=
  ResolvesAfter 0
    (Some (AdaptiveProcessor.mkResult (Some [kernelSpan 1 2]) None)).

(** An analyzer that never settles. *)
Definition hang (text : string)
  : Behaviour (AdaptiveProcessor.AnyResult TextlintKernelMessage.t) :=
  NeverSettles.

(** A document of [n] empty lines. *)
Definition emptyLines (n : nat) : string := Text.join (document n "").

(** The stale-result guard as stated: when the cycle has gone to the
    analyzer with the digest [contentHash], and the document stored at
    completion has another digest, the cycle leaves the highlights and the
    result view as they were. *)
Definition staleResultDiscarded (generateContentHash : string -> string)
  (lintText : string ->
              Behaviour (AdaptiveProcessor.AnyResult TextlintKernelMessage.t))
  (nowAtStart nowAtCompletion : Z) (activeFile : option string)
  (vaultAtStart vaultAtCompletion : gmap string string)
  (p : TextlintHighlightPlugin.Plugin) : Prop :=
  forall p' file content contentHash content',
    TextlintHighlightPlugin.lintCurrentFile_start generateContentHash
      nowAtStart activeFile vaultAtStart p
    = TextlintHighlightPlugin.Analysing p' file content contentHash ->
    vaultAtCompletion !! file = Some content' ->
    generateContentHash content' <> contentHash ->
    let after :=
      TextlintHighlightPlugin.lintCurrentFile generateContentHash lintText
        nowAtStart nowAtCompletion activeFile vaultAtStart vaultAtCompletion p in
    TextlintHighlightPlugin.highlights after = TextlintHighlightPlugin.highlights p' /\
    TextlintHighlightPlugin.view after = TextlintHighlightPlugin.view p'.

(** The plugin after [initializeBasicDependencies]: nothing linted yet, an
    empty result cache with ten minutes of life, nothing displayed. *)
Definition freshPlugin : TextlintHighlightPlugin.Plugin :=
  TextlintHighlightPlugin.mkPlugin None None (Cache.new (10 * 60 * 1000)) [] None [].

(** A synthetic analyzer that reports line 1 of a text of fewer than a
    thousand lines at once and never settles on a longer one. *)
Definition reportShortOnly (text : string)
  : Behaviour (AdaptiveProcessor.AnyResult TextlintKernelMessage.t) :=
  if (Text.lineCount text <? 1000)%nat then reportLineOne 0 text
  else NeverSettles.

(** The polynomial [c1 * 31^(n-1) + ... + cn] of the code units of a
    text, started from [h] and not reduced. *)
Fixpoint hornerHash (units : list Z) (h : Z) : Z :=
  match units with
  | [] => h
  | c :: rest => hornerHash rest (31 * h + c)
  end.

(** Two Japanese texts of two characters each, in UTF-8: the code units
    are 12354, 12400 and 12355, 12369. *)
Definition aBa : string := "あば".

Definition iKe : string := "ぃけ".

(** Whether the character [c] occurs in [s]. *)
Fixpoint hasChar (c : ascii) (s : string) : bool :=
  match s with
  | EmptyString => false
  | String a rest => Ascii.eqb a c || hasChar c rest
  end.

(** An analyzer that rejects every text after five milliseconds. *)
Definition failing (text : string)
  : Behaviour (AdaptiveProcessor.AnyResult TextlintKernelMessage.t) :=
  RejectsAfter 5 (AnalyzerError "analysis failed").

(** The plugin when [note.md], reading [first draft], was the last
    document processed and one finding is on display, with nothing in
    the result cache. *)
Definition processedPlugin : TextlintHighlightPlugin.Plugin :=
  TextlintHighlightPlugin.applyResults [finding 1 None] "note.md"
    (TextlintHighlightPlugin.withLast "note.md"
       (Cache.generateSimpleHash "first draft") freshPlugin).

Definition firstDraft : gmap string string :=
  {[ "note.md"%string := "first draft"%string ]}.


(** The throttler is idle exactly when no timer is set, and then nothing
    is queued. *)
Definition throttleIdle (st : MemoryManager.Throttle) : Prop :=
  (MemoryManager.canRun st = true <-> MemoryManager.timer st = None) /\
  (MemoryManager.canRun st = true -> MemoryManager.queued st = false).

(** The fourteen toggles that [generateSettingsKey] reads, in its order,
    and the names it gives them. *)
Definition ruleToggles (settings : TextlintPluginSettings) : list bool :=
  [ useTechnicalWritingPreset settings; useSpacingPreset settings;
    useJtfStylePreset settings; useCustomRules settings;
    useNoDroppingI settings; useNoInsertDroppingSa settings;
    useNoDoubledJoshi settings; useNoMixedZenkakuHankakuAlphabet settings;
    usePreferTariTari settings; useWriteGood settings;
    useJaNoOrthographicVariants settings; useNoMixDearuDesumasu settings;
    useNoStartDuplicatedConjunction settings; useDateWeekdayMismatch settings ].

Definition toggleNames : list string :=
  [ "tech"; "space"; "jtf"; "ai"; "dropi"; "dropsa"; "joshi"; "alpha"; "tari";
    "writegood"; "orthographic"; "mixstyle"; "conjunction"; "dateweekday" ]%string.

(** The names whose toggle is on. *)
Fixpoint selected (flags : list bool) (names : list string) : list string :=
  match flags, names with
  | flag :: flags', name :: names' =>
      if flag then name :: selected flags' names' else selected flags' names'
  | _, _ => []
  end.

(** A name that can be told apart in a key: not empty, no underscore. *)
Definition plainName (name : string) : Prop :=
  name <> EmptyString /\ hasChar "_" name = false.

(** Settings with every toggle on and off, and two that differ in the
    debug log only. *)
Definition allOn (debug : bool) : TextlintPluginSettings :=
  mkSettings true true true true debug true true true true true true true true
    true true true.

Definition allOff : TextlintPluginSettings :=
  mkSettings false false false false true true false false false false false
    false false false false false.

(** Whether the code unit at an index is white space, or ends a word. *)
Definition spaceAt (lineText : list Z) (i : Z) : bool :=
  from_option EditorExtension.isSpace false (EditorExtension.charAt lineText i).

Definition boundaryAt (lineText : list Z) (i : Z) : bool :=
  from_option EditorExtension.isBoundary false (EditorExtension.charAt lineText i).

(** The code units of [  ab! cd]. *)
Definition spacedWords : list Z := [32; 32; 97; 98; 33; 32; 99; 100].

(** A cache with a five-minute time to live that holds one entry written
    at time 0 and one written at time 400000. *)
Definition oldAndNew : Cache.t Z :=
  Cache.set 400000 "new" 2 None (Cache.set 0 "old" 1 None (Cache.new (5 * 60 * 1000))).

(** * Properties *)

(** ** Lines *)

Section TextFacts.
Import Text.

Lemma split_nonempty s : split s <> [].
Proof.
  destruct s as [|c rest]; simpl; [discriminate|].
  destruct (Ascii.eqb c newline); [discriminate|].
  destruct (split rest); discriminate.
Qed.

Lemma lineCount_pos s : (0 < lineCount s)%nat.
Proof.
  unfold lineCount. pose proof (split_nonempty s) as H.
  destruct (split s); [congruence | simpl; lia].
Qed.

Lemma split_no_newline s : Forall (fun l => hasNewline l = false) (split s).
Proof.
  induction s as [|c rest IH]; simpl.
  - repeat constructor.
  - destruct (Ascii.eqb c newline) eqn:Ec.
    + constructor; [reflexivity | exact IH].
    + destruct (split rest) as [|l ls].
      * repeat constructor. simpl. rewrite Ec. reflexivity.
      * inversion IH; subst. constructor; [|assumption].
        simpl. rewrite Ec. assumption.
Qed.

Lemma split_line_only l : hasNewline l = false -> split l = [l].
Proof.
  induction l as [|c rest IH]; simpl; [reflexivity|].
  intros H. apply orb_false_iff in H as [Hc Hr].
  rewrite Hc, (IH Hr). reflexivity.
Qed.

Lemma split_line_cons l (s : string) :
  hasNewline l = false ->
  split (l ++ String newline s) = l :: split s.
Proof.
  induction l as [|c rest IH]; simpl; intros H.
  - reflexivity.
  - apply orb_false_iff in H as [Hc Hr].
    rewrite Hc, (IH Hr). reflexivity.
Qed.

(** Splitting what was joined gives the lines back, as long as there
    is at least one line and no line contains a line break. *)
Lemma split_join ls :
  ls <> [] -> Forall (fun l => hasNewline l = false) ls ->
  split (join ls) = ls.
Proof.
  induction ls as [|l ls IH]; [congruence|].
  intros _ Hall. inversion Hall as [|? ? Hl Hls]; subst.
  destruct ls as [|l' ls'].
  - simpl. apply split_line_only, Hl.
  - change (join (l :: l' :: ls')) with (l ++ String newline (join (l' :: ls')))%string.
    rewrite split_line_cons by assumption.
    f_equal. apply IH; [discriminate | assumption].
Qed.

Lemma join_split s : join (split s) = s.
Proof.
  induction s as [|c rest IH]; [reflexivity|].
  cbn [split].
  pose proof (split_nonempty rest) as Hne.
  destruct (Ascii.eqb c newline) eqn:Ec.
  - apply Ascii.eqb_eq in Ec. subst c.
    destruct (split rest) as [|l ls] eqn:E; [congruence|].
    change (join (EmptyString :: l :: ls))
      with (EmptyString ++ String newline (join (l :: ls)))%string.
    rewrite IH. reflexivity.
  - destruct (split rest) as [|l ls] eqn:E; [congruence|].
    destruct ls as [|l' ls'].
    + cbn [join] in *. congruence.
    + change (join (l :: l' :: ls'))
        with (l ++ String newline (join (l' :: ls')))%string in IH.
      change (join (String c l :: l' :: ls'))
        with (String c l ++ String newline (join (l' :: ls')))%string.
      rewrite <- IH at 1. reflexivity.
Qed.

End TextFacts.

(** ** The stable sort by line *)

Section SortFacts.
Context {M : Type} `{Located M}.

Lemma insertByLine_perm x l : insertByLine x l ≡ₚ x :: l.
Proof.
  induction l as [|y l IH]; simpl; [reflexivity|].
  destruct (lineOf x <=? lineOf y); [reflexivity|].
  rewrite IH. apply Permutation_swap.
Qed.

Lemma sortByLine_perm l : sortByLine l ≡ₚ l.
Proof.
  induction l as [|x l IH]; simpl; [reflexivity|].
  rewrite insertByLine_perm, IH. reflexivity.
Qed.

Lemma insertByLine_sorted x l :
  StronglySorted lineLe l -> StronglySorted lineLe (insertByLine x l).
Proof.
  induction 1 as [|y l Hs IH Hall]; simpl.
  - repeat constructor.
  - destruct (lineOf x <=? lineOf y) eqn:E.
    + apply Z.leb_le in E. constructor.
      * constructor; assumption.
      * constructor; [exact E|].
        eapply Forall_impl; [exact Hall|].
        unfold lineLe. intros; lia.
    + apply Z.leb_gt in E. constructor; [exact IH|].
      rewrite insertByLine_perm. constructor; [unfold lineLe; lia | exact Hall].
Qed.

Lemma sortByLine_sorted l : StronglySorted lineLe (sortByLine l).
Proof.
  induction l as [|x l IH]; simpl; [constructor|].
  apply insertByLine_sorted, IH.
Qed.

(** Stability: for each line number, the messages on that line keep
    their relative order. *)
Lemma insertByLine_filter k x l :
  StronglySorted lineLe l ->
  filter (fun m => lineOf m = k) (insertByLine x l)
  = filter (fun m => lineOf m = k) (x :: l).
Proof.
  induction 1 as [|y l Hs IH Hall]; simpl; [reflexivity|].
  destruct (lineOf x <=? lineOf y) eqn:E; [reflexivity|].
  apply Z.leb_gt in E.
  rewrite !filter_cons. rewrite !filter_cons in IH.
  destruct (decide (lineOf y = k)) as [Hy|Hy];
    destruct (decide (lineOf x = k)) as [Hx|Hx]; try lia.
  - rewrite IH. reflexivity.
  - rewrite IH. reflexivity.
  - exact IH.
Qed.

Lemma sortByLine_stable k l :
  filter (fun m => lineOf m = k) (sortByLine l)
  = filter (fun m => lineOf m = k) l.
Proof.
  induction l as [|x l IH]; simpl; [reflexivity|].
  rewrite insertByLine_filter by apply sortByLine_sorted.
  rewrite !filter_cons, IH. reflexivity.
Qed.

Lemma sortByLine_sorted_id l : StronglySorted lineLe l -> sortByLine l = l.
Proof.
  induction 1 as [|x l Hs IH Hall]; simpl; [reflexivity|].
  rewrite IH. destruct l as [|y l']; simpl; [reflexivity|].
  inversion Hall as [|? ? Hxy _]; subst.
  unfold lineLe in Hxy. apply Z.leb_le in Hxy. rewrite Hxy. reflexivity.
Qed.

End SortFacts.

(** ** Cache expiry *)

Section CacheFacts.
Context {T : Type}.

Lemma get_expired now key (c : Cache.t T) entry :
  Cache.cache c !! key = Some entry ->
  now - Cache.timestamp entry > Cache.ttl c ->
  Cache.get now key c = (None, Cache.invalidate key c).
Proof.
  intros Hk Hexp. unfold Cache.get. rewrite Hk.
  destruct (Z.ltb_spec (Cache.ttl c) (now - Cache.timestamp entry)); [reflexivity | lia].
Qed.

Lemma get_fresh now key (c : Cache.t T) entry :
  Cache.cache c !! key = Some entry ->
  now - Cache.timestamp entry <= Cache.ttl c ->
  Cache.get now key c = (Some (Cache.data entry), c).
Proof.
  intros Hk Hexp. unfold Cache.get. rewrite Hk.
  destruct (Z.ltb_spec (Cache.ttl c) (now - Cache.timestamp entry)); [lia | reflexivity].
Qed.

Lemma get_set now key (value : T) hash (c : Cache.t T) :
  0 <= Cache.ttl c ->
  Cache.get now key (Cache.set now key value hash c)
  = (Some value, Cache.set now key value hash c).
Proof.
  intros Httl.
  rewrite (get_fresh now key _ (Cache.mkEntry value now hash));
    [reflexivity | apply lookup_insert_eq | simpl; lia].
Qed.

Lemma isValidByHash_undigested now key currentHash (c : Cache.t T) entry :
  Cache.cache c !! key = Some entry ->
  truthyStr (Cache.hash entry) = false ->
  Cache.isValidByHash now key currentHash c = (false, c).
Proof.
  intros Hk Hh. unfold Cache.isValidByHash. rewrite Hk, Hh. reflexivity.
Qed.

(** C6 (as the code has it). An expired entry is reported absent by
    [get] and by [isValidByHash] even when its stored digest equals the
    queried one. [get] always evicts it; [isValidByHash] evicts it when
    the entry carries a non-empty digest, and leaves the map untouched
    when the entry was stored without one. *)
Theorem cache_expiry_takes_precedence now key currentHash (c : Cache.t T) entry :
  Cache.cache c !! key = Some entry ->
  now - Cache.timestamp entry > Cache.ttl c ->
  Cache.get now key c = (None, Cache.invalidate key c) /\
  (Cache.isValidByHash now key currentHash c).1 = false /\
  (truthyStr (Cache.hash entry) = true ->
   (Cache.isValidByHash now key currentHash c).2 = Cache.invalidate key c) /\
  (truthyStr (Cache.hash entry) = false ->
   (Cache.isValidByHash now key currentHash c).2 = c).
Proof.
  intros Hk Hexp. split; [eapply get_expired; eassumption|].
  unfold Cache.isValidByHash. rewrite Hk.
  destruct (truthyStr (Cache.hash entry)); simpl.
  - destruct (Z.ltb_spec (Cache.ttl c) (now - Cache.timestamp entry)); [|lia].
    split; [reflexivity|]. split; [intros _; reflexivity | discriminate].
  - split; [reflexivity|]. split; [discriminate | intros _; reflexivity].
Qed.

End CacheFacts.

(** The cache of the plugin, ten milliseconds of life, holding an entry
    for [note.md] written at time 0 under the digest [abc]; read at time
    100 with that same digest. *)
Lemma cache_expiry_takes_precedence_witness :
  let c : Cache.t (list TextlintMessage.t) :=
    Cache.set 0 "note.md" [] (Some "abc"%string) (Cache.new 10) in
  Cache.get 100 "note.md" c = (None, Cache.invalidate "note.md" c) /\
  (Cache.isValidByHash 100 "note.md" "abc" c).1 = false /\
  (Cache.isValidByHash 100 "note.md" "abc" c).2 = Cache.invalidate "note.md" c.
Proof.
  intros c.
  destruct (cache_expiry_takes_precedence 100 "note.md" "abc" c
              (Cache.mkEntry [] 0 (Some "abc"%string)))
    as (Hget & Hvalid & Hevict & _).
  - apply lookup_insert_eq.
  - simpl. lia.
  - split; [exact Hget|]. split; [exact Hvalid|]. apply Hevict. reflexivity.
Defined.

(** C6 (as stated) fails for an entry stored without a digest:
    [isValidByHash] answers [false] for it before looking at its age, and
    the expired entry stays in the map. *)
Lemma cache_isValidByHash_keeps_undigested_entry :
  let c : Cache.t (list TextlintMessage.t) :=
    Cache.set 0 "note.md" [] None (Cache.new 10) in
  ~ evictsWhenExpired 100 "note.md" "abc" c.
Proof.
  intros c Hclaim.
  destruct (Hclaim (Cache.mkEntry [] 0 None)) as [_ Hvalid].
  - apply lookup_insert_eq.
  - simpl. lia.
  - pose proof (isValidByHash_undigested 100 "note.md" "abc" c
                  (Cache.mkEntry [] 0 None)) as Hkeep.
    rewrite Hvalid in Hkeep.
    specialize (Hkeep (lookup_insert_eq _ _ _) eq_refl).
    assert (Hsame : Cache.invalidate "note.md" c = c) by congruence.
    assert (Hl : Cache.cache (Cache.invalidate "note.md" c) !! "note.md"%string = None)
      by apply lookup_delete_eq.
    rewrite Hsame in Hl.
    assert (Hr : Cache.cache c !! "note.md"%string
                 = Some (Cache.mkEntry ([] : list TextlintMessage.t) 0 None))
      by apply lookup_insert_eq.
    congruence.
Qed.

(** ** Differential re-analysis *)

Section DifferentialFacts.
Import DifferentialProcessor.

(** *** The line adjustment *)

Lemma adjustLineNumbers_lookup messages regions (i : nat) :
  adjustLineNumbers messages regions !! i
  = adjustMessage regions <$> messages !! i.
Proof. unfold adjustLineNumbers. apply list_lookup_fmap. Qed.

Lemma adjustMessage_line regions message :
  TextlintMessage.line (adjustMessage regions message)
  = adjustLine (TextlintMessage.line message) regions.
Proof. reflexivity. Qed.

(** C9. Lines are counted from 1, so a defined [endLine] is at least 1.
    A finding that enters the line adjustment with a defined [endLine]
    leaves it with [endLine] equal to its adjusted start line, whatever
    its span was: the span of a finding over several lines is not
    preserved. *)
Theorem adjustLineNumbers_collapses_span messages regions (i : nat) message e :
  messages !! i = Some message ->
  TextlintMessage.endLine message = Some e ->
  1 <= e ->
  exists adjusted,
    adjustLineNumbers messages regions !! i = Some adjusted /\
    TextlintMessage.line adjusted
    = adjustLine (TextlintMessage.line message) regions /\
    TextlintMessage.endLine adjusted = Some (TextlintMessage.line adjusted) /\
    (TextlintMessage.line message < e ->
     forall e', TextlintMessage.endLine adjusted = Some e' ->
                e' - TextlintMessage.line adjusted
                <> e - TextlintMessage.line message).
Proof.
  intros Hi He Hdefined. exists (adjustMessage regions message).
  split; [rewrite adjustLineNumbers_lookup, Hi; reflexivity|].
  split; [reflexivity|].
  assert (Hend : TextlintMessage.endLine (adjustMessage regions message)
                 = Some (TextlintMessage.line (adjustMessage regions message))).
  { unfold adjustMessage. simpl. rewrite He. simpl.
    destruct (Z.eqb_spec e 0); [lia | reflexivity]. }
  split; [exact Hend|].
  intros Hspan e' He'. rewrite Hend in He'.
  assert (Hsame : e' = TextlintMessage.line (adjustMessage regions message))
    by congruence.
  rewrite Hsame. lia.
Qed.

(** A finding without [endLine] leaves the line adjustment without
    one. *)
Lemma adjustLineNumbers_keeps_absent_endLine regions message :
  TextlintMessage.endLine message = None ->
  TextlintMessage.endLine (adjustMessage regions message) = None.
Proof. intros He. unfold adjustMessage. simpl. rewrite He. reflexivity. Qed.

(** *** Unchanged text *)

Lemma scanLine_same lines contextLines st i :
  currentRegion st = None ->
  scanLine lines lines contextLines st i = st.
Proof.
  intros Hnone. unfold scanLine.
  rewrite String.eqb_refl, Hnone. reflexivity.
Qed.

Lemma scan_same lines contextLines indices st :
  currentRegion st = None ->
  scan lines lines contextLines indices st = st.
Proof.
  revert st. induction indices as [|i indices IH]; intros st Hnone; [reflexivity|].
  unfold scan in *. simpl. rewrite scanLine_same by exact Hnone. apply IH, Hnone.
Qed.

Lemma findChangedRegions_same content contextLines :
  findChangedRegions content content contextLines = [].
Proof.
  unfold findChangedRegions. rewrite scan_same by reflexivity. reflexivity.
Qed.

(** C5. When the text handed to [processChangedRegionsOnly] is the
    cached snapshot, the call returns the cached findings as they are,
    hands nothing to the analyzer, and leaves the store as it was. *)
Theorem processChangedRegionsOnly_same_text now store filePath newContent
  lintFunction cached :
  store !! filePath = Some cached ->
  content cached = newContent ->
  processChangedRegionsOnly now store filePath newContent lintFunction
  = mkRun [] (Resolved (messages cached)) store.
Proof.
  intros Hcached Hsame. unfold processChangedRegionsOnly.
  rewrite Hcached, Hsame, findChangedRegions_same. reflexivity.
Qed.

(** *** Majority of lines changed *)

Lemma changedLineCount_nil : changedLineCount [] = 0.
Proof. reflexivity. Qed.

(** C4. With a cached snapshot, when the changed-region lines are more
    than half of the lines of the new text, the analyzer is called once,
    on the complete new text; when that analysis resolves, its findings
    are returned and stored, with the new text, as the snapshot. *)
Theorem processChangedRegionsOnly_majority now store filePath newContent
  lintFunction cached :
  store !! filePath = Some cached ->
  2 * changedLineCount (findChangedRegions (content cached) newContent 5)
  > Z.of_nat (Text.lineCount newContent) ->
  let run := processChangedRegionsOnly now store filePath newContent lintFunction in
  calls run = [newContent] /\
  returned run = lintFunction newContent /\
  forall found,
    lintFunction newContent = Resolved found ->
    previousResults run = <[filePath := mkCached newContent found now]> store.
Proof.
  intros Hcached Hmajor. unfold processChangedRegionsOnly.
  rewrite Hcached.
  destruct (findChangedRegions (content cached) newContent 5) as [|r rs] eqn:Hregions.
  - rewrite changedLineCount_nil in Hmajor. lia.
  - cbn [length Nat.eqb]. unfold majorityChanged.
    destruct (Z.ltb_spec (Z.of_nat (Text.lineCount newContent))
                (2 * changedLineCount (r :: rs))) as [_|Hle]; [|lia].
    destruct (lintFunction newContent) as [found|e|]; simpl;
      (split; [reflexivity|]); (split; [reflexivity|]);
      intros found' Hfound; congruence.
Qed.

(** *** Changed regions *)

Section Regions.
Variables (oldLines newLines : list string) (contextLines : Z).
Hypothesis margin : 0 <= contextLines.

Local Abbreviation P := (padded oldLines newLines contextLines).
Local Abbreviation scanned := (scanned oldLines newLines contextLines).

Lemma scanned_current k st r :
  scanned k st -> currentRegion st = Some r -> P r.
Proof.
  intros [_ Hcur] Hr. destruct (Hcur r Hr) as (d1 & d2 & ? & ? & ? & ? & ?).
  exists d1, d2. repeat split; try assumption; lia.
Qed.

Lemma scanLine_scanned k st :
  scanned k st -> scanned (S k) (scanLine oldLines newLines contextLines st k).
Proof.
  intros Hst. pose proof Hst as [Hdone Hcur]. unfold scanLine.
  destruct (String.eqb_spec (Text.lineAt oldLines k) (Text.lineAt newLines k))
    as [Heq|Hne]; simpl.
  - destruct (currentRegion st) as [r|] eqn:Hr.
    + destruct (end_ r <? Z.of_nat k).
      * split; simpl; [|discriminate].
        apply Forall_app. split; [exact Hdone|].
        constructor; [|constructor]. eapply scanned_current; eassumption.
      * split; [exact Hdone|]. intros r' Hr'.
        destruct (Hcur r') as (d1 & d2 & ? & ? & ? & ? & ?); [congruence|].
        exists d1, d2. repeat split; try assumption; lia.
    + split; [exact Hdone|]. rewrite Hr. discriminate.
  - destruct (currentRegion st) as [r|] eqn:Hr; split; simpl; try exact Hdone;
      intros r' Hr'; injection Hr' as <-.
    + destruct (Hcur r eq_refl) as (d1 & d2 & ? & ? & ? & ? & ?).
      exists d1, k. simpl. repeat split; try assumption; lia.
    + exists k, k. simpl. repeat split; try assumption; lia.
Qed.

Lemma scan_scanned n :
  scanned n (scan oldLines newLines contextLines (seq 0 n) (mkScan [] None)).
Proof.
  induction n as [|n IH].
  - split; simpl; [constructor | discriminate].
  - rewrite seq_S. unfold scan in *. rewrite fold_left_app. simpl.
    apply scanLine_scanned, IH.
Qed.

Lemma closeScan_padded k st : scanned k st -> Forall P (closeScan st).
Proof.
  intros Hst. pose proof Hst as [Hdone _]. unfold closeScan.
  destruct (currentRegion st) as [r|] eqn:Hr; [|exact Hdone].
  apply Forall_app. split; [exact Hdone|].
  constructor; [|constructor]. eapply scanned_current; eassumption.
Qed.

Lemma padded_wellformed r : P r -> start r <= end_ r.
Proof. intros (d1 & d2 & _ & _ & ? & ? & ?). lia. Qed.

Lemma padded_widen last current :
  P last -> P current ->
  P (mkRegion (start last) (Z.max (end_ last) (end_ current))).
Proof.
  intros (d1 & d2 & ? & ? & ? & ? & ?) (e1 & e2 & ? & ? & ? & ? & ?).
  destruct (Z.max_spec (end_ last) (end_ current)) as [[Hlt Hmax]|[Hle Hmax]];
    simpl; rewrite Hmax.
  - exists d1, e2. repeat split; try assumption; lia.
  - exists d1, d2. repeat split; try assumption; lia.
Qed.

Lemma mergeFrom_padded last regions :
  P last -> Forall P regions -> Forall P (mergeFrom last regions).
Proof.
  intros Hlast Hall. revert last Hlast.
  induction Hall as [|current rest Hcur Hrest IH]; intros last Hlast; simpl.
  - constructor; [exact Hlast | constructor].
  - destruct (start current <=? end_ last).
    + apply IH, padded_widen; assumption.
    + constructor; [exact Hlast | apply IH, Hcur].
Qed.

Lemma mergeFrom_lower last regions :
  P last -> Forall P regions ->
  Forall (fun r => start last <= start r) (mergeFrom last regions).
Proof.
  intros Hlast Hall. revert last Hlast.
  induction Hall as [|current rest Hcur Hrest IH]; intros last Hlast; simpl.
  - constructor; [lia | constructor].
  - destruct (Z.leb_spec (start current) (end_ last)) as [Hle|Hgt].
    + apply (IH (mkRegion (start last) (Z.max (end_ last) (end_ current)))).
      apply padded_widen; assumption.
    + constructor; [lia|].
      eapply Forall_impl; [apply IH, Hcur|]. simpl. intros r Hr.
      pose proof (padded_wellformed last Hlast). lia.
Qed.

Lemma mergeFrom_separated last regions :
  P last -> Forall P regions ->
  StronglySorted separated (mergeFrom last regions).
Proof.
  intros Hlast Hall. revert last Hlast.
  induction Hall as [|current rest Hcur Hrest IH]; intros last Hlast; simpl.
  - repeat constructor.
  - destruct (Z.leb_spec (start current) (end_ last)) as [Hle|Hgt].
    + apply IH, padded_widen; assumption.
    + constructor; [apply IH, Hcur|].
      eapply Forall_impl; [apply mergeFrom_lower; [exact Hcur | exact Hrest]|].
      simpl. unfold separated. intros r Hr. lia.
Qed.

Lemma mergeOverlappingRegions_padded regions :
  Forall P regions ->
  Forall P (mergeOverlappingRegions regions) /\
  StronglySorted separated (mergeOverlappingRegions regions).
Proof.
  intros Hall. destruct Hall as [|first rest Hfirst Hrest]; simpl.
  - split; constructor.
  - split; [apply mergeFrom_padded | apply mergeFrom_separated]; assumption.
Qed.

End Regions.

(** *** Every differing line is covered *)

Section Coverage.
Variables (oldLines newLines : list string) (contextLines : Z).
Hypothesis margin : 0 <= contextLines.

Local Abbreviation covered := (covering oldLines newLines contextLines).

Lemma covering_later k found :
  Forall (fun r => start r <= Z.max 0 (Z.of_nat k - contextLines) /\
                   end_ r < Z.of_nat k + contextLines) found ->
  Forall (fun r => start r <= Z.max 0 (Z.of_nat (S k) - contextLines) /\
                   end_ r < Z.of_nat (S k) + contextLines) found.
Proof.
  intros Hall. eapply Forall_impl; [exact Hall|]. intros r [? ?]. lia.
Qed.

Lemma scanLine_covering k st :
  covered k st -> covered (S k) (scanLine oldLines newLines contextLines st k).
Proof.
  unfold covering, scanLine, closeScan.
  intros (Hsorted & Hbound & Hcover).
  destruct (String.eqb_spec (Text.lineAt oldLines k) (Text.lineAt newLines k))
    as [Heq|Hne]; simpl.
  - assert (Hsame : forall d : nat, (d < S k)%nat -> differs oldLines newLines d ->
                      (d < k)%nat).
    { intros d Hd Hdiff. destruct (decide (d = k)) as [->|]; [contradiction | lia]. }
    destruct (currentRegion st) as [r|] eqn:Hr.
    + destruct (end_ r <? Z.of_nat k); simpl; rewrite ?Hr;
        (split; [exact Hsorted|]); (split; [apply covering_later, Hbound|]);
        intros d Hd Hdiff; apply Hcover; auto.
    + rewrite Hr. split; [exact Hsorted|]. split; [apply covering_later, Hbound|].
      intros d Hd Hdiff; apply Hcover; auto.
  - destruct (currentRegion st) as [r|] eqn:Hr; simpl.
    + apply StronglySorted_app in Hsorted as (Hcross & Hdone & _).
      apply Forall_app in Hbound as [Hbdone Hbr].
      apply Forall_cons in Hbr as [[Hstart Hend] _].
      split; [|split].
      * apply StronglySorted_app_2; [|exact Hdone | repeat constructor].
        intros a b Ha Hb. apply list_elem_of_singleton in Hb as ->.
        apply (Hcross a r Ha). apply list_elem_of_singleton. reflexivity.
      * apply Forall_app. split; [apply covering_later, Hbdone|].
        constructor; [simpl; lia | constructor].
      * intros d Hd Hdiff. apply Exists_app.
        destruct (decide (d = k)) as [->|Hdk].
        { right. constructor. unfold covers. simpl. lia. }
        assert (Hlt : (d < k)%nat) by lia.
        apply Hcover in Hlt; [|exact Hdiff].
        apply Exists_app in Hlt as [Hin|Hin]; [left; exact Hin|].
        right. constructor. apply Exists_cons in Hin as [Hin|Hin].
        -- unfold covers in *. simpl. lia.
        -- inversion Hin.
    + split; [|split].
      * apply StronglySorted_app_2; [|exact Hsorted | repeat constructor].
        intros a b Ha Hb. apply list_elem_of_singleton in Hb as ->.
        rewrite Forall_forall in Hbound. destruct (Hbound a Ha) as [Hstart _].
        unfold startLe. simpl. exact Hstart.
      * apply Forall_app. split; [apply covering_later, Hbound|].
        constructor; [simpl; lia | constructor].
      * intros d Hd Hdiff. apply Exists_app.
        destruct (decide (d = k)) as [->|Hdk].
        { right. constructor. unfold covers. simpl. lia. }
        left. apply Hcover; [lia | exact Hdiff].
Qed.

Lemma scan_covering n :
  covered n (scan oldLines newLines contextLines (seq 0 n) (mkScan [] None)).
Proof.
  induction n as [|n IH].
  - split; [constructor|]. split; [constructor|]. intros d Hd. lia.
  - rewrite seq_S. unfold scan in *. rewrite fold_left_app. simpl.
    apply scanLine_covering, IH.
Qed.

Lemma mergeFrom_covers last regions d :
  StronglySorted startLe (last :: regions) ->
  Exists (covers d) (last :: regions) ->
  Exists (covers d) (mergeFrom last regions).
Proof.
  revert last. induction regions as [|current rest IH]; intros last Hsorted Hd.
  - exact Hd.
  - simpl. apply StronglySorted_cons in Hsorted as [Hlast Hsorted].
    apply Forall_cons in Hlast as [Hlc Hlrest].
    destruct (Z.leb_spec (start current) (end_ last)) as [Hle|Hgt].
    + apply IH.
      * apply StronglySorted_cons in Hsorted as [_ Hsorted].
        constructor; [exact Hsorted | exact Hlrest].
      * apply Exists_cons in Hd as [Hd|Hd].
        { left. unfold covers in *. simpl. lia. }
        apply Exists_cons in Hd as [Hd|Hd]; [|right; exact Hd].
        left. unfold covers, startLe in *. simpl. lia.
    + apply Exists_cons in Hd as [Hd|Hd]; [left; exact Hd|].
      right. apply IH; assumption.
Qed.

Lemma differs_in_range d :
  differs oldLines newLines d ->
  (d < Nat.max (length oldLines) (length newLines))%nat.
Proof.
  unfold differs, Text.lineAt. intros Hdiff.
  destruct (Nat.lt_ge_cases d (Nat.max (length oldLines) (length newLines)))
    as [Hlt|Hge]; [exact Hlt|].
  rewrite !(lookup_ge_None_2 _ d) in Hdiff by lia. contradiction.
Qed.

End Coverage.

(** For a context margin [N >= 0], every line that differs between the
    two texts lies in one of the regions returned. *)
Lemma findChangedRegions_covers oldContent newContent contextLines (d : nat) :
  0 <= contextLines ->
  differs (Text.split oldContent) (Text.split newContent) d ->
  Exists (covers d) (findChangedRegions oldContent newContent contextLines).
Proof.
  intros Hmargin Hdiff. unfold findChangedRegions.
  destruct (scan_covering (Text.split oldContent) (Text.split newContent)
              contextLines Hmargin
              (Nat.max (length (Text.split oldContent))
                 (length (Text.split newContent))))
    as (Hsorted & _ & Hcover).
  specialize (Hcover d (differs_in_range _ _ d Hdiff) Hdiff).
  destruct (closeScan _) as [|first rest]; [inversion Hcover|].
  simpl. apply mergeFrom_covers; assumption.
Qed.

(** C2 (as the code has it). For a context margin [N >= 0], every region
    returned by [findChangedRegions] starts [N] lines before a differing
    line, not below line 0, and ends [N] lines after a differing line,
    so that it covers both; and the regions come in ascending order, each
    ending strictly before the next one starts, so that no two overlap. *)
Theorem findChangedRegions_padded_disjoint oldContent newContent contextLines :
  0 <= contextLines ->
  let regions := findChangedRegions oldContent newContent contextLines in
  Forall (padded (Text.split oldContent) (Text.split newContent) contextLines)
    regions /\
  Forall (fun r => exists d : nat,
            differs (Text.split oldContent) (Text.split newContent) d /\
            start r <= Z.of_nat d <= end_ r) regions /\
  StronglySorted separated regions.
Proof.
  intros Hmargin regions.
  destruct (mergeOverlappingRegions_padded (Text.split oldContent)
              (Text.split newContent) contextLines Hmargin
              (closeScan (scan (Text.split oldContent) (Text.split newContent)
                            contextLines
                            (seq 0 (Nat.max (length (Text.split oldContent))
                                      (length (Text.split newContent))))
                            (mkScan [] None)))) as [Hpad Hsep].
  { eapply closeScan_padded, scan_scanned. }
  split; [exact Hpad|]. split; [|exact Hsep].
  eapply Forall_impl; [exact Hpad|].
  intros r (d1 & d2 & Hd1 & _ & ? & ? & ?). exists d1. split; [exact Hd1 | lia].
Qed.

(** *** The region-limited path *)

Lemma adjustLine_first_region line region regions :
  line <= end_ region - start region + 1 ->
  adjustLine line (region :: regions) = start region + line.
Proof.
  intros Hin. simpl.
  destruct (Z.leb_spec line (end_ region - start region + 1)); [reflexivity | lia].
Qed.

(** A position in the extracted text that exceeds the length of every
    single region is matched with no region and stays as it is, although
    it lies in a later region whenever the regions together are that long. *)
Lemma adjustLine_beyond_every_region line regions :
  Forall (fun region => end_ region - start region + 1 < line) regions ->
  adjustLine line regions = line.
Proof.
  induction 1 as [|region rest Hlen _ IH]; simpl; [reflexivity|].
  destruct (Z.leb_spec line (end_ region - start region + 1)); [lia | exact IH].
Qed.



(** With a cached snapshot, some changed region and no majority of
    changed lines, the analyzer receives the extracted regions only, and
    its findings, line-adjusted, are merged with the old findings that lie
    outside the regions. *)
Lemma processChangedRegionsOnly_minority now store filePath newContent
  lintFunction cached found :
  store !! filePath = Some cached ->
  let regions := findChangedRegions (content cached) newContent 5 in
  regions <> [] ->
  2 * changedLineCount regions <= Z.of_nat (Text.lineCount newContent) ->
  lintFunction (extractRegionContent newContent regions) = Resolved found ->
  let merged :=
    mergeResults (messages cached) (adjustLineNumbers found regions) regions in
  processChangedRegionsOnly now store filePath newContent lintFunction
  = mkRun [extractRegionContent newContent regions] (Resolved merged)
      (<[filePath := mkCached newContent merged now]> store).
Proof.
  intros Hcached regions Hsome Hminor Hlint merged.
  unfold processChangedRegionsOnly. rewrite Hcached. fold regions.
  destruct regions as [|r rs] eqn:Hregions; [congruence|].
  cbn [length Nat.eqb]. unfold majorityChanged.
  destruct (Z.ltb_spec (Z.of_nat (Text.lineCount newContent))
              (2 * changedLineCount (r :: rs))); [lia|].
  rewrite Hlint. reflexivity.
Qed.

End DifferentialFacts.

(** A finding spanning lines 2 to 4 of the extracted text, for the single
    region [[45, 55]]: it comes out on line 47 with end line 47. *)
Lemma adjustLineNumbers_collapses_span_witness :
  exists adjusted,
    DifferentialProcessor.adjustLineNumbers [finding 2 (Some 4)]
      [DifferentialProcessor.mkRegion 45 55] !! 0%nat = Some adjusted /\
    TextlintMessage.line adjusted = 47 /\
    TextlintMessage.endLine adjusted = Some 47.
Proof.
  destruct (adjustLineNumbers_collapses_span [finding 2 (Some 4)]
              [DifferentialProcessor.mkRegion 45 55] 0 (finding 2 (Some 4)) 4
              eq_refl eq_refl ltac:(lia))
    as (adjusted & Hat & Hline & Hend & _).
  exists adjusted. split; [exact Hat|]. split; [exact Hline|].
  rewrite Hend, Hline. reflexivity.
Defined.

(** A first call on an empty store analyses the text; a second call with
    the same text returns the same findings and calls nothing. *)
Lemma processChangedRegionsOnly_same_text_witness :
  let lint := fun _ : string => Resolved [finding 3 None] in
  let first := DifferentialProcessor.processChangedRegionsOnly 10 ∅ "note.md"
                 "one two three" lint in
  DifferentialProcessor.calls first = ["one two three"%string] /\
  DifferentialProcessor.processChangedRegionsOnly 20
    (DifferentialProcessor.previousResults first) "note.md" "one two three" lint
  = DifferentialProcessor.mkRun [] (Resolved [finding 3 None])
      (DifferentialProcessor.previousResults first).
Proof.
  intros lint first. split; [reflexivity|].
  apply (processChangedRegionsOnly_same_text 20
           (DifferentialProcessor.previousResults first) "note.md" "one two three"
           lint (DifferentialProcessor.mkCached "one two three" [finding 3 None] 10)).
  - apply lookup_insert_eq.
  - reflexivity.
Defined.

Lemma processChangedRegionsOnly_majority_witness :
  let store : gmap string DifferentialProcessor.CachedResult :=
    {[ "note.md"%string := DifferentialProcessor.mkCached hundredLines [finding 70 None] 0 ]} in
  let lint := fun text : string =>
    if String.eqb text sixtyChanged then Resolved [finding 1 None]
    else Rejected (AnalyzerError "not the whole text") in
  let run := DifferentialProcessor.processChangedRegionsOnly 5 store "note.md"
               sixtyChanged lint in
  DifferentialProcessor.calls run = [sixtyChanged] /\
  DifferentialProcessor.returned run = Resolved [finding 1 None] /\
  DifferentialProcessor.previousResults run
  = <["note.md"%string :=
        DifferentialProcessor.mkCached sixtyChanged [finding 1 None] 5]> store.
Proof.
  intros store lint run.
  destruct (processChangedRegionsOnly_majority 5 store "note.md" sixtyChanged lint
              (DifferentialProcessor.mkCached hundredLines [finding 70 None] 0))
    as (Hcalls & Hret & Hstore).
  - apply lookup_singleton_eq.
  - vm_compute. reflexivity.
  - assert (Hlint : lint sixtyChanged = Resolved [finding 1 None])
      by (unfold lint; rewrite String.eqb_refl; reflexivity).
    split; [exact Hcalls|]. split.
    + fold run in Hret. rewrite Hret. exact Hlint.
    + apply Hstore, Hlint.
Defined.

(** C2 (as stated) fails on twelve lines whose first and last line are
    rewritten, with a margin of 5: the scan returns [[0, 5]] and
    [[6, 16]]. The second region ends at 16, beyond the last line 11 (the
    end of a region is not clamped), and the two regions touch without
    being merged (only regions that share a line are merged). *)
Lemma findChangedRegions_touching_unclamped :
  let oldLines := Text.split twelveLines in
  let newLines := Text.split firstAndLastChanged in
  let regions :=
    DifferentialProcessor.findChangedRegions twelveLines firstAndLastChanged 5 in
  regions = [DifferentialProcessor.mkRegion 0 5; DifferentialProcessor.mkRegion 6 16] /\
  ~ Forall (paddedAndClamped oldLines newLines 5) regions /\
  ~ neitherOverlapNorTouch regions.
Proof.
  intros oldLines newLines regions.
  assert (Hregions : regions
                     = [DifferentialProcessor.mkRegion 0 5;
                        DifferentialProcessor.mkRegion 6 16])
    by (vm_compute; reflexivity).
  split; [exact Hregions|]. rewrite Hregions. split.
  - intros Hall. apply Forall_cons in Hall as [_ Hall].
    apply Forall_cons in Hall as [Hsecond _].
    destruct Hsecond as (d1 & d2 & _ & _ & _ & _ & Hend).
    assert (Hold : length oldLines = 12%nat) by (vm_compute; reflexivity).
    assert (Hnew : length newLines = 12%nat) by (vm_compute; reflexivity).
    rewrite Hold, Hnew in Hend. simpl in Hend. lia.
  - intros Hapart.
    destruct (Hapart 0%nat 1%nat (DifferentialProcessor.mkRegion 0 5)
                (DifferentialProcessor.mkRegion 6 16)) as [H|H];
      [discriminate | reflexivity | reflexivity | simpl in H; lia | simpl in H; lia].
Qed.

(** The same twelve lines: both regions are padded around a changed line
    and the first ends before the second starts. *)
Lemma findChangedRegions_padded_disjoint_witness :
  let regions :=
    DifferentialProcessor.findChangedRegions twelveLines firstAndLastChanged 5 in
  Forall (padded (Text.split twelveLines) (Text.split firstAndLastChanged) 5)
    regions /\
  Forall (fun r => exists d : nat,
            differs (Text.split twelveLines) (Text.split firstAndLastChanged) d /\
            DifferentialProcessor.start r <= Z.of_nat d
            <= DifferentialProcessor.end_ r) regions /\
  StronglySorted separated regions.
Proof.
  apply (findChangedRegions_padded_disjoint twelveLines firstAndLastChanged 5).
  lia.
Defined.

(** The small-edit path on a hundred lines of which line index 50
    changes: the one region is [[45, 55]], the analyzer receives those
    eleven lines only, its finding on line 6 of them lands on line 51, and
    the old findings outside the region are kept as they are. *)
Lemma processChangedRegionsOnly_small_edit :
  let kept := [finding 3 (Some 4); finding 90 None] in
  let store : gmap string DifferentialProcessor.CachedResult :=
    {[ "note.md"%string :=
         DifferentialProcessor.mkCached hundredLines (finding 50 None :: kept) 0 ]} in
  let run := DifferentialProcessor.processChangedRegionsOnly 5 store "note.md"
               oneBadLine markBad in
  DifferentialProcessor.findChangedRegions hundredLines oneBadLine 5
  = [DifferentialProcessor.mkRegion 45 55] /\
  DifferentialProcessor.calls run
  = [Text.join (Text.slice (Text.split oneBadLine) 45 56)] /\
  markBad oneBadLine = Resolved [finding 51 None] /\
  DifferentialProcessor.returned run
  = Resolved [finding 3 (Some 4); finding 51 None; finding 90 None].
Proof. vm_compute. repeat split. Qed.

(** C1 fails on the code. A hundred cached lines; lines 11 and 76 turn
    bad. The changed regions are [[5, 15]] and [[70, 80]], 22 lines of
    100, so the analyzer receives the 22 extracted lines and reports
    lines 6 and 17 of them. Line 6 lies in the first region and is
    remapped to 11. Line 17 is the sixth line of the second region, line
    76 of the new text, but the adjustment compares 17 with the length of
    each region (11) instead of with the running total of lengths, finds
    no region, and returns the finding on line 17. *)
Lemma processChangedRegionsOnly_second_region_misplaced :
  let store : gmap string DifferentialProcessor.CachedResult :=
    {[ "note.md"%string := DifferentialProcessor.mkCached hundredLines [] 0 ]} in
  let regions :=
    [DifferentialProcessor.mkRegion 5 15; DifferentialProcessor.mkRegion 70 80] in
  let run := DifferentialProcessor.processChangedRegionsOnly 5 store "note.md"
               twoBadLines markBad in
  DifferentialProcessor.findChangedRegions hundredLines twoBadLines 5 = regions /\
  DifferentialProcessor.calls run
  = [DifferentialProcessor.extractRegionContent twoBadLines regions] /\
  markBad (DifferentialProcessor.extractRegionContent twoBadLines regions)
  = Resolved [finding 6 None; finding 17 None] /\
  markBad twoBadLines = Resolved [finding 11 None; finding 76 None] /\
  DifferentialProcessor.returned run
  = Resolved [finding 11 None; finding 17 None].
Proof. vm_compute. repeat split. Qed.

(** ** Chunked analysis *)

Section ChunkFacts.
Import AdaptiveProcessor.
Context {M : Type} `{Located M}.

Lemma lineOf_rebase lineOffset (msg : M) :
  lineOf (rebase lineOffset msg) = lineOf msg + lineOffset.
Proof. unfold rebase. apply lineOf_withLines. Qed.

(** More fuel than [lines.length] changes nothing: the loop has ended. *)
Lemma chunkLoop_fuel fuel extra lines chunkSize i :
  0 < chunkSize -> 0 <= i ->
  Z.of_nat (length lines) - i <= Z.of_nat fuel ->
  chunkLoop (fuel + extra) lines chunkSize i = chunkLoop fuel lines chunkSize i.
Proof.
  intros Hsize. revert i.
  induction fuel as [|fuel IH]; intros i Hi Hfuel.
  - destruct extra as [|extra]; simpl; [reflexivity|].
    destruct (Z.ltb_spec i (Z.of_nat (length lines))); [lia | reflexivity].
  - simpl. destruct (Z.ltb_spec i (Z.of_nat (length lines))); [|reflexivity].
    rewrite IH by lia. reflexivity.
Qed.

Lemma createProcessingChunks_nonempty content chunkSize chunks :
  createProcessingChunks content chunkSize = Some chunks -> chunks <> [].
Proof.
  unfold createProcessingChunks.
  destruct (0 <? chunkSize); [|discriminate].
  intros Hsome. injection Hsome as <-.
  pose proof (split_nonempty content) as Hne.
  destruct (Text.split content) as [|l ls]; [congruence|].
  simpl. discriminate.
Qed.

Lemma createProcessingChunks_positive content chunkSize :
  0 < chunkSize -> is_Some (createProcessingChunks content chunkSize).
Proof.
  intros Hsize. unfold createProcessingChunks.
  destruct (Z.ltb_spec 0 chunkSize); [eexists; reflexivity | lia].
Qed.

Lemma slice_chunk (lines : list string) (i : nat) chunkSize :
  0 < chunkSize -> (i < length lines)%nat ->
  Text.slice lines (Z.of_nat i) (Z.of_nat i + chunkSize)
  = take (Z.to_nat chunkSize) (drop i lines).
Proof.
  intros Hsize Hi. unfold Text.slice, Text.sliceIndex.
  destruct (Z.ltb_spec (Z.of_nat i) 0); [lia|].
  destruct (Z.ltb_spec (Z.of_nat i + chunkSize) 0); [lia|].
  rewrite (Z.min_l (Z.of_nat i)) by lia. rewrite Nat2Z.id.
  destruct (Z.le_ge_cases (Z.of_nat i + chunkSize) (Z.of_nat (length lines))).
  - rewrite Z.min_l by lia. f_equal. lia.
  - rewrite Z.min_r by lia.
    rewrite !take_ge; [reflexivity | rewrite length_drop; lia | rewrite length_drop; lia].
Qed.

(** The chunks are the lines of the text, in order and without loss:
    splitting each chunk again and putting the lines together gives the
    lines from index [i] on. *)
Lemma chunkLoop_partition fuel lines chunkSize (i : nat) :
  0 < chunkSize ->
  Forall (fun l => Text.hasNewline l = false) lines ->
  (length lines - i <= fuel)%nat ->
  concat (map Text.split (chunkLoop fuel lines chunkSize (Z.of_nat i)))
  = drop i lines.
Proof.
  intros Hsize Hlines. revert i.
  induction fuel as [|fuel IH]; intros i Hfuel; simpl.
  - rewrite drop_ge by lia. reflexivity.
  - destruct (Z.ltb_spec (Z.of_nat i) (Z.of_nat (length lines))) as [Hlt|Hge].
    + simpl. rewrite slice_chunk by lia.
      replace (Z.of_nat i + chunkSize)
        with (Z.of_nat (i + Z.to_nat chunkSize)) by lia.
      rewrite IH by lia.
      rewrite split_join.
      * rewrite <- drop_drop. apply take_drop.
      * intros Hnil. apply (f_equal length) in Hnil.
        rewrite length_take, length_drop in Hnil. simpl in Hnil. lia.
      * apply Forall_take, Forall_drop, Hlines.
    + rewrite drop_ge by lia. reflexivity.
Qed.

Lemma createProcessingChunks_partition content chunkSize chunks :
  createProcessingChunks content chunkSize = Some chunks ->
  concat (map Text.split chunks) = Text.split content.
Proof.
  unfold createProcessingChunks.
  destruct (Z.ltb_spec 0 chunkSize); [|discriminate].
  intros Hsome. injection Hsome as <-.
  apply (chunkLoop_partition _ _ _ 0); [assumption | apply split_no_newline | lia].
Qed.

Lemma runChunks_all_fulfilled processFunction timeout count
  (res : string -> AnyResult M) chunks :
  Forall (fun chunk =>
            raceTimer timeout count (ChunkTimeout timeout count)
              (processFunction chunk) = Fulfilled (res chunk)) chunks ->
  runChunks processFunction timeout count (chunkDataOf chunks)
  = chunkResults res chunks.
Proof.
  induction 1 as [|chunk chunks Hchunk _ IH]; simpl; [reflexivity|].
  rewrite Hchunk, IH. reflexivity.
Qed.

Lemma runChunks_all_failed (processFunction : string -> Behaviour (AnyResult M))
  timeout count chunks :
  Forall (fun chunk =>
            exists e, raceTimer timeout count (ChunkTimeout timeout count)
                        (processFunction chunk) = Failed e) chunks ->
  runChunks processFunction timeout count (chunkDataOf chunks) = [].
Proof.
  induction 1 as [|chunk chunks [e Hchunk] _ IH]; simpl; [reflexivity|].
  rewrite Hchunk. exact IH.
Qed.

Lemma mergeLoop_offsets (results : list (ChunkResult M)) lineOffset :
  mergeLoop results lineOffset
  = concat (imap (fun k item =>
                    map (rebase (lineOffset + precedingLines results k))
                      (default [] (messagesOf (result item))))
                 results).
Proof.
  revert lineOffset. induction results as [|item rest IH]; intros lineOffset.
  - reflexivity.
  - cbn [mergeLoop]. rewrite imap_cons. cbn [concat]. f_equal.
    + unfold precedingLines. simpl. rewrite Z.add_0_r.
      destruct (messagesOf (result item)); reflexivity.
    + rewrite IH. f_equal. apply imap_ext. intros k item' _.
      unfold precedingLines. simpl. f_equal. f_equal. lia.
Qed.

Lemma mergeLoop_rebased (results : list (ChunkResult M)) :
  mergeLoop results 0 = rebasedFindings results.
Proof. rewrite mergeLoop_offsets. reflexivity. Qed.

Lemma chunked_run content processFunction strategy chunkSize' chunks :
  1000 <= Z.of_nat (Text.lineCount content) ->
  chunkSize strategy = Some chunkSize' ->
  createProcessingChunks content chunkSize' = Some chunks ->
  processWithKuromojiOptimization content processFunction strategy
  = Resolved (Some (mergeChunkResults
                      (runChunks processFunction (processingTimeout strategy)
                         (Z.of_nat (length chunks)) (chunkDataOf chunks)))).
Proof.
  intros Hlong Hsize Hchunks. unfold processWithKuromojiOptimization.
  destruct (Z.ltb_spec (Z.of_nat (Text.lineCount content)) 1000); [lia|].
  rewrite Hsize. simpl.
  assert (Hpos : 0 < chunkSize').
  { unfold createProcessingChunks in Hchunks.
    destruct (Z.ltb_spec 0 chunkSize'); [assumption | discriminate]. }
  destruct (Z.eqb_spec chunkSize' 0); [lia|]. simpl.
  rewrite Hchunks. unfold chunkDataOf at 1. rewrite length_map. reflexivity.
Qed.

Lemma rebase_movedDown lineOffset (msg : M) :
  rebase lineOffset msg = movedDown lineOffset msg.
Proof.
  unfold rebase, movedDown. destruct (endLineOf msg) as [e|]; [|reflexivity].
  simpl. destruct (e =? 0); reflexivity.
Qed.

Lemma rebasedFindings_moved (results : list (ChunkResult M)) :
  rebasedFindings results = movedFindings results.
Proof.
  unfold rebasedFindings, movedFindings. f_equal. apply imap_ext.
  intros k item _. apply map_ext. intros msg. apply rebase_movedDown.
Qed.

Lemma elem_of_movedFindings (results : list (ChunkResult M)) moved :
  moved ∈ movedFindings results <->
  exists k item msg,
    results !! k = Some item /\
    msg ∈ default [] (messagesOf (result item)) /\
    moved = movedDown (precedingLines results k) msg.
Proof.
  unfold movedFindings. rewrite list_elem_of_In, in_concat. split.
  - intros (found & Hfound & Hmoved).
    apply list_elem_of_In, elem_of_lookup_imap in Hfound
      as (k & item & -> & Hitem).
    apply list_elem_of_In, list_elem_of_fmap in Hmoved as (msg & -> & Hmsg).
    exists k, item, msg. auto.
  - intros (k & item & msg & Hitem & Hmsg & ->).
    exists (map (movedDown (precedingLines results k))
              (default [] (messagesOf (result item)))).
    split.
    + apply list_elem_of_In.
      apply (elem_of_lookup_imap_2
               (fun k item => map (movedDown (precedingLines results k))
                                (default [] (messagesOf (result item))))
               results item k Hitem).
    + apply list_elem_of_In, list_elem_of_fmap. exists msg. auto.
Qed.

(** C7. In a chunked run in which the wait for every chunk is fulfilled,
    the merged findings are the findings of all chunks, each moved down by
    the number of lines of the chunks before its own, put together in
    chunk order and then sorted by line, ascending and stably. Moving a
    finding down adds that number to its line and to its end line; a
    finding without end line keeps none. *)
Theorem chunk_merge_rebases_and_sorts content processFunction strategy
  chunkSize' chunks (res : string -> AnyResult M) :
  1000 <= Z.of_nat (Text.lineCount content) ->
  chunkSize strategy = Some chunkSize' ->
  createProcessingChunks content chunkSize' = Some chunks ->
  Forall (fun chunk =>
            raceTimer (processingTimeout strategy) (Z.of_nat (length chunks))
              (ChunkTimeout (processingTimeout strategy) (Z.of_nat (length chunks)))
              (processFunction chunk) = Fulfilled (res chunk)) chunks ->
  let results := chunkResults res chunks in
  let merged := sortByLine (movedFindings results) in
  processWithKuromojiOptimization content processFunction strategy
  = Resolved (Some (mkResult (Some merged) (Some (firstFilePath results)))) /\
  StronglySorted lineLe merged /\
  merged ≡ₚ movedFindings results /\
  (forall moved,
     moved ∈ merged <->
     exists k item msg,
       results !! k = Some item /\
       msg ∈ default [] (messagesOf (result item)) /\
       moved = movedDown (precedingLines results k) msg) /\
  (forall lineOffset (msg : M),
     lineOf (movedDown lineOffset msg) = lineOf msg + lineOffset /\
     endLineOf (movedDown lineOffset msg)
     = match endLineOf msg with
       | Some e => if e =? 0 then None else Some (e + lineOffset)
       | None => None
       end).
Proof.
  intros Hlong Hsize Hchunks Hall results merged.
  split; [|split; [apply sortByLine_sorted|split; [apply sortByLine_perm|split]]].
  - rewrite (chunked_run _ _ _ _ _ Hlong Hsize Hchunks).
    rewrite (runChunks_all_fulfilled _ _ _ res) by exact Hall.
    fold results. unfold mergeChunkResults.
    pose proof (createProcessingChunks_nonempty _ _ _ Hchunks) as Hne.
    destruct results as [|item rest] eqn:Hresults.
    + destruct chunks; [congruence | discriminate].
    + rewrite mergeLoop_rebased, rebasedFindings_moved. reflexivity.
  - intros moved. unfold merged.
    rewrite (sortByLine_perm (movedFindings results)).
    apply elem_of_movedFindings.
  - intros lineOffset msg. unfold movedDown.
    split; [apply lineOf_withLines | apply endLineOf_withLines].
Qed.

(** C10. In a chunked run in which the wait for every chunk is rejected
    (the chunk call throws, or its timer fires first), the run resolves
    with [{ messages: [] }]. *)
Theorem all_chunks_failed_resolves_empty content
  (processFunction : string -> Behaviour (AnyResult M)) strategy
  chunkSize' chunks :
  1000 <= Z.of_nat (Text.lineCount content) ->
  chunkSize strategy = Some chunkSize' ->
  createProcessingChunks content chunkSize' = Some chunks ->
  Forall (fun chunk =>
            exists e,
              raceTimer (processingTimeout strategy) (Z.of_nat (length chunks))
                (ChunkTimeout (processingTimeout strategy) (Z.of_nat (length chunks)))
                (processFunction chunk) = Failed e) chunks ->
  processWithKuromojiOptimization content processFunction strategy
  = Resolved (Some (mkResult (Some []) None)).
Proof.
  intros Hlong Hsize Hchunks Hall.
  rewrite (chunked_run _ _ _ _ _ Hlong Hsize Hchunks).
  rewrite runChunks_all_failed by exact Hall. reflexivity.
Qed.

End ChunkFacts.

Section SmallDocuments.
Import AdaptiveProcessor.
Context {M : Type} `{Located M}.

(** Below a thousand lines the analyzer is called once, on the whole
    text, and the call is awaited as it is: its outcome is the outcome of
    the run, whatever the strategy. *)
Lemma small_document_direct content
  (processFunction : string -> Behaviour (AnyResult M)) strategy :
  Z.of_nat (Text.lineCount content) < 1000 ->
  processWithKuromojiOptimization content processFunction strategy
  = await (processFunction content).
Proof.
  intros Hsmall. unfold processWithKuromojiOptimization.
  destruct (Z.ltb_spec (Z.of_nat (Text.lineCount content)) 1000); [reflexivity | lia].
Qed.

End SmallDocuments.

(** The synthetic analyzer that reports line 1 of what it receives, on
    2500 lines with the strategy selected for them (chunks of 1000 lines):
    the findings are on lines 1, 1001 and 2001. With the analyzer that
    reports a finding from line 1 to line 2, the findings are from 1 to
    2, from 1001 to 1002 and from 2001 to 2002. *)
Lemma chunk_merge_rebases_and_sorts_witness :
  AdaptiveProcessor.chunkSize (AdaptiveProcessor.getOptimalStrategy (emptyLines 2500))
  = Some 1000 /\
  AdaptiveProcessor.processWithKuromojiOptimization (emptyLines 2500)
    (reportLineOne 0) (AdaptiveProcessor.getOptimalStrategy (emptyLines 2500))
  = Resolved (Some (AdaptiveProcessor.mkResult
                      (Some [kernelFinding 1; kernelFinding 1001; kernelFinding 2001])
                      (Some ""%string))) /\
  AdaptiveProcessor.processWithKuromojiOptimization (emptyLines 2500)
    reportSpan (AdaptiveProcessor.getOptimalStrategy (emptyLines 2500))
  = Resolved (Some (AdaptiveProcessor.mkResult
                      (Some [kernelSpan 1 2; kernelSpan 1001 1002;
                             kernelSpan 2001 2002])
                      (Some ""%string))).
Proof.
  split; [vm_compute; reflexivity|].
  pose (chunks := AdaptiveProcessor.chunkLoop 2500 (Text.split (emptyLines 2500)) 1000 0).
  assert (Hlong : 1000 <= Z.of_nat (Text.lineCount (emptyLines 2500)))
    by (vm_compute; discriminate).
  assert (Hsize : AdaptiveProcessor.chunkSize
                    (AdaptiveProcessor.getOptimalStrategy (emptyLines 2500))
                  = Some 1000) by (vm_compute; reflexivity).
  assert (Hchunks : AdaptiveProcessor.createProcessingChunks (emptyLines 2500) 1000
                    = Some chunks) by (vm_compute; reflexivity).
  split.
  - destruct (chunk_merge_rebases_and_sorts (emptyLines 2500) (reportLineOne 0)
                (AdaptiveProcessor.getOptimalStrategy (emptyLines 2500)) 1000 chunks
                (fun _ => Some (AdaptiveProcessor.mkResult (Some [kernelFinding 1]) None))
                Hlong Hsize Hchunks)
      as [Hrun _].
    + apply Forall_forall. intros chunk _. reflexivity.
    + rewrite Hrun. vm_compute. reflexivity.
  - destruct (chunk_merge_rebases_and_sorts (emptyLines 2500) reportSpan
                (AdaptiveProcessor.getOptimalStrategy (emptyLines 2500)) 1000 chunks
                (fun _ => Some (AdaptiveProcessor.mkResult (Some [kernelSpan 1 2]) None))
                Hlong Hsize Hchunks)
      as [Hrun _].
    + apply Forall_forall. intros chunk _. reflexivity.
    + rewrite Hrun. vm_compute. reflexivity.
Defined.

(** An analyzer that needs 20 seconds per call, on 2500 lines: each of
    the three chunks has 10 seconds, every wait is cut short by its
    timer, and the run resolves with no findings. *)
Lemma all_chunks_failed_resolves_empty_witness :
  AdaptiveProcessor.processWithKuromojiOptimization (emptyLines 2500)
    (reportLineOne 20000) (AdaptiveProcessor.getOptimalStrategy (emptyLines 2500))
  = Resolved (Some (AdaptiveProcessor.mkResult (Some []) None)).
Proof.
  pose (chunks := AdaptiveProcessor.chunkLoop 2500 (Text.split (emptyLines 2500)) 1000 0).
  apply (all_chunks_failed_resolves_empty (emptyLines 2500) (reportLineOne 20000)
           (AdaptiveProcessor.getOptimalStrategy (emptyLines 2500)) 1000 chunks).
  - vm_compute. discriminate.
  - vm_compute. reflexivity.
  - vm_compute. reflexivity.
  - apply Forall_forall. intros chunk _.
    exists (ChunkTimeout 30000 3). vm_compute. reflexivity.
Defined.

(** C8 fails on the code. A one-line document selects the first strategy
    (15 seconds, no chunking), and the analyzer is called once on the whole
    text; but the call is awaited with no timer around it. With an
    analyzer that never settles the run never settles, and with one that
    needs 20 seconds the run resolves after 20 seconds; under
    [processWithTimeout] with the strategy's 15 seconds, as on the path
    for strategies without chunking, both calls are rejected. *)
Lemma small_document_call_has_no_timer :
  let strategy := AdaptiveProcessor.getOptimalStrategy "short text" in
  AdaptiveProcessor.processingTimeout strategy = 15000 /\
  AdaptiveProcessor.processWithKuromojiOptimization "short text" hang strategy
  = Unsettled /\
  AdaptiveProcessor.processWithTimeout (hang "short text")
    (AdaptiveProcessor.processingTimeout strategy)
  = Rejected (ProcessingTimeout 15000) /\
  AdaptiveProcessor.processWithKuromojiOptimization "short text"
    (reportLineOne 20000) strategy
  = await (reportLineOne 20000 "short text") /\
  AdaptiveProcessor.processWithTimeout (reportLineOne 20000 "short text")
    (AdaptiveProcessor.processingTimeout strategy)
  = Rejected (ProcessingTimeout 15000).
Proof. vm_compute. repeat split. Qed.

(** ** The analysis cycle *)

Section CycleFacts.
Import TextlintHighlightPlugin.
Variable generateContentHash : string -> string.
Variable lintText :
  string -> Behaviour (AdaptiveProcessor.AnyResult TextlintKernelMessage.t).

Lemma applyResults_display messages file p :
  highlights (applyResults messages file p) = messages /\
  view (applyResults messages file p) = Some (messages, file).
Proof. split; reflexivity. Qed.

(** What the cycle goes to the analyzer with is the document as read at
    the start, under its digest. *)
Lemma lintCurrentFile_start_analysing now activeFile vault p p' file content
  contentHash :
  lintCurrentFile_start generateContentHash now activeFile vault p
  = Analysing p' file content contentHash ->
  activeFile = Some file /\ vault !! file = Some content /\
  contentHash = generateContentHash content /\
  highlights p' = highlights p /\ view p' = view p.
Proof.
  unfold lintCurrentFile_start.
  destruct activeFile as [f|]; [|discriminate].
  destruct (vault !! f) as [c|] eqn:Hread; [|discriminate].
  destruct (_ && _).
  - destruct (Cache.get _ _ _) as [[cached|] c0]; discriminate.
  - destruct (Cache.isValidByHash _ _ _ _) as [valid c0].
    destruct (if valid then _ else _) as [[cached|] c1]; [discriminate|].
    intros Heq. injection Heq as <- <- <- <-. repeat split. exact Hread.
Qed.

(** C3 (as the code has it). A cycle that has gone to the analyzer and
    whose analysis resolves with findings applies them to the highlights
    and to the result view, and caches them under the digest computed at
    the start, whatever the document is when the analysis completes: the
    digest is not computed again. *)
Theorem completed_analysis_is_applied nowAtStart nowAtCompletion activeFile
  vaultAtStart vaultAtCompletion p p' file content contentHash found path :
  lintCurrentFile_start generateContentHash nowAtStart activeFile vaultAtStart p
  = Analysing p' file content contentHash ->
  AdaptiveProcessor.processWithKuromojiOptimization content lintText
    (AdaptiveProcessor.getOptimalStrategy content)
  = Resolved (Some (AdaptiveProcessor.mkResult (Some found) path)) ->
  let after :=
    lintCurrentFile generateContentHash lintText nowAtStart nowAtCompletion
      activeFile vaultAtStart vaultAtCompletion p in
  highlights after = map fromKernel found /\
  view after = Some (map fromKernel found, file) /\
  resultCache after
  = Cache.set nowAtCompletion (cacheKey file contentHash) (map fromKernel found)
      (Some contentHash) (resultCache p') /\
  contentHash = generateContentHash content /\
  vaultAtStart !! file = Some content.
Proof.
  intros Hstart Hrun after. subst after. unfold lintCurrentFile.
  rewrite Hstart, Hrun. simpl.
  destruct (lintCurrentFile_start_analysing _ _ _ _ _ _ _ _ Hstart)
    as (_ & Hread & Hhash & _).
  repeat split; assumption.
Qed.

End CycleFacts.

(** The document reads [first draft] when the cycle starts and
    [second draft] when the analysis completes; the findings for the
    first draft are displayed and cached all the same. *)
Lemma completed_analysis_is_applied_witness :
  let vaultAtStart : gmap string string := {[ "note.md"%string := "first draft"%string ]} in
  let vaultAtCompletion : gmap string string := {[ "note.md"%string := "second draft"%string ]} in
  let after :=
    TextlintHighlightPlugin.lintCurrentFile Cache.generateSimpleHash (reportLineOne 0)
      0 1 (Some "note.md"%string) vaultAtStart vaultAtCompletion freshPlugin in
  TextlintHighlightPlugin.highlights after
  = [TextlintHighlightPlugin.fromKernel (kernelFinding 1)] /\
  TextlintHighlightPlugin.view after
  = Some ([TextlintHighlightPlugin.fromKernel (kernelFinding 1)], "note.md"%string).
Proof.
  intros vaultAtStart vaultAtCompletion after.
  destruct (completed_analysis_is_applied Cache.generateSimpleHash (reportLineOne 0)
              0 1 (Some "note.md"%string) vaultAtStart vaultAtCompletion freshPlugin
              (TextlintHighlightPlugin.withLast "note.md"
                 (Cache.generateSimpleHash "first draft") freshPlugin)
              "note.md" "first draft" (Cache.generateSimpleHash "first draft")
              [kernelFinding 1] None)
    as (Hhighlights & Hview & _).
  - vm_compute. reflexivity.
  - vm_compute. reflexivity.
  - split; [exact Hhighlights | exact Hview].
Defined.

(** C3 (as stated) fails: the document is edited while the analysis
    runs, its digest at completion differs from the one analysed, and the
    findings of the superseded text are put on display. *)
Lemma stale_result_is_displayed :
  let vaultAtStart : gmap string string := {[ "note.md"%string := "first draft"%string ]} in
  let vaultAtCompletion : gmap string string := {[ "note.md"%string := "second draft"%string ]} in
  Cache.generateSimpleHash "first draft" <> Cache.generateSimpleHash "second draft" /\
  ~ staleResultDiscarded Cache.generateSimpleHash (reportLineOne 0) 0 1
      (Some "note.md"%string) vaultAtStart vaultAtCompletion freshPlugin.
Proof.
  intros vaultAtStart vaultAtCompletion.
  assert (Hdigest : Cache.generateSimpleHash "first draft"
                    <> Cache.generateSimpleHash "second draft")
    by (vm_compute; discriminate).
  split; [exact Hdigest|].
  intros Hclaim.
  destruct (Hclaim (TextlintHighlightPlugin.withLast "note.md"
                      (Cache.generateSimpleHash "first draft") freshPlugin)
              "note.md"%string "first draft"%string
              (Cache.generateSimpleHash "first draft") "second draft"%string)
    as [Hhighlights _].
  - vm_compute. reflexivity.
  - vm_compute. reflexivity.
  - intros Heq. apply Hdigest. symmetry. exact Heq.
  - vm_compute in Hhighlights. discriminate Hhighlights.
Qed.

(** * Further properties of the embedded code *)

(** ** Changed regions and the differential path *)

Section MoreDifferentialFacts.
Import DifferentialProcessor.

(** X1. For a context margin [N >= 0], every line that differs between
    the old and the new text lies inside one of the regions that
    [findChangedRegions] returns: no changed line escapes re-analysis. *)
Theorem every_differing_line_in_a_region oldContent newContent contextLines
  (d : nat) :
  0 <= contextLines ->
  differs (Text.split oldContent) (Text.split newContent) d ->
  exists r,
    r ∈ findChangedRegions oldContent newContent contextLines /\
    start r <= Z.of_nat d <= end_ r.
Proof.
  intros Hmargin Hdiff.
  apply Exists_exists.
  apply (findChangedRegions_covers _ _ _ _ Hmargin Hdiff).
Qed.

Lemma scanLine_equal oldLines newLines contextLines st i :
  Text.lineAt oldLines i = Text.lineAt newLines i ->
  currentRegion st = None ->
  scanLine oldLines newLines contextLines st i = st.
Proof.
  intros Heq Hnone. unfold scanLine.
  rewrite Heq, String.eqb_refl, Hnone. reflexivity.
Qed.

Lemma scan_equal oldLines newLines contextLines indices st :
  (forall i, Text.lineAt oldLines i = Text.lineAt newLines i) ->
  currentRegion st = None ->
  scan oldLines newLines contextLines indices st = st.
Proof.
  intros Heq. revert st.
  induction indices as [|i indices IH]; intros st Hnone; [reflexivity|].
  unfold scan in *. simpl. rewrite scanLine_equal by auto. apply IH, Hnone.
Qed.

Lemma scanLine_keeps_found oldLines newLines contextLines st i :
  closeScan st <> [] ->
  closeScan (scanLine oldLines newLines contextLines st i) <> [].
Proof.
  unfold scanLine, closeScan.
  destruct (negb _); destruct (currentRegion st) as [r|] eqn:Hr; simpl.
  - intros _ Hnil. apply app_eq_nil in Hnil as [_ Hnil]. discriminate.
  - intros _ Hnil. apply app_eq_nil in Hnil as [_ Hnil]. discriminate.
  - destruct (end_ r <? Z.of_nat i); simpl; rewrite ?Hr; auto.
  - rewrite Hr. auto.
Qed.

Lemma scanLine_finds oldLines newLines contextLines st i :
  differs oldLines newLines i ->
  closeScan (scanLine oldLines newLines contextLines st i) <> [].
Proof.
  unfold differs, scanLine, closeScan. intros Hdiff.
  destruct (String.eqb_spec (Text.lineAt oldLines i) (Text.lineAt newLines i));
    [contradiction|].
  simpl. destruct (currentRegion st); simpl;
    intros Hnil; apply app_eq_nil in Hnil as [_ Hnil]; discriminate.
Qed.

Lemma scan_finds oldLines newLines contextLines n (d : nat) :
  (d < n)%nat -> differs oldLines newLines d ->
  closeScan (scan oldLines newLines contextLines (seq 0 n) (mkScan [] None)) <> [].
Proof.
  intros Hd Hdiff. induction n as [|n IH]; [lia|].
  rewrite seq_S. unfold scan in *. rewrite fold_left_app. simpl.
  destruct (decide (d = n)) as [->|Hne].
  - apply scanLine_finds, Hdiff.
  - apply scanLine_keeps_found, IH. lia.
Qed.

Lemma mergeFrom_nonempty last regions : mergeFrom last regions <> [].
Proof.
  revert last. induction regions as [|current rest IH]; intros last; simpl.
  - discriminate.
  - destruct (start current <=? end_ last); [apply IH | discriminate].
Qed.

Lemma equal_lines_no_region oldContent newContent contextLines :
  (forall i, Text.lineAt (Text.split oldContent) i
             = Text.lineAt (Text.split newContent) i) ->
  findChangedRegions oldContent newContent contextLines = [].
Proof.
  intros Heq. unfold findChangedRegions. rewrite scan_equal by auto. reflexivity.
Qed.

(** X2. Whatever the context margin, [findChangedRegions] returns no
    region exactly when the two texts agree line by line, a line missing
    on one side counting as an empty line. *)
Theorem no_region_iff_no_differing_line oldContent newContent contextLines :
  findChangedRegions oldContent newContent contextLines = [] <->
  forall i, Text.lineAt (Text.split oldContent) i
            = Text.lineAt (Text.split newContent) i.
Proof.
  unfold findChangedRegions. split.
  - intros Hnone i.
    destruct (string_dec (Text.lineAt (Text.split oldContent) i)
                (Text.lineAt (Text.split newContent) i)) as [Heq|Hne];
      [exact Heq|].
    exfalso.
    pose proof (differs_in_range _ _ i Hne) as Hrange.
    pose proof (scan_finds _ _ contextLines _ i Hrange Hne) as Hfound.
    destruct (closeScan _) as [|first rest]; [congruence|].
    simpl in Hnone. exact (mergeFrom_nonempty _ _ Hnone).
  - intros Heq. exact (equal_lines_no_region _ _ contextLines Heq).
Qed.

(** X3. When the new text agrees with the cached snapshot line by line
    (it may differ from it in empty lines at the end),
    [processChangedRegionsOnly] returns the cached findings, calls no
    analyzer, and leaves the store as it was: the snapshot stays the old
    text. *)
Theorem processChangedRegionsOnly_equal_lines now store filePath newContent
  lintFunction cached :
  store !! filePath = Some cached ->
  (forall i, Text.lineAt (Text.split (content cached)) i
             = Text.lineAt (Text.split newContent) i) ->
  processChangedRegionsOnly now store filePath newContent lintFunction
  = mkRun [] (Resolved (messages cached)) store.
Proof.
  intros Hcached Heq. unfold processChangedRegionsOnly. rewrite Hcached.
  rewrite (equal_lines_no_region _ _ 5 Heq). reflexivity.
Qed.


(** X5. One call of [processChangedRegionsOnly] calls the analyzer at
    most once; it never touches the snapshot of another document; and
    when the call does not resolve (the analyzer rejects or never
    settles) the store is exactly as before. *)
Theorem processChangedRegionsOnly_store_discipline now store filePath
  newContent lintFunction :
  let run := processChangedRegionsOnly now store filePath newContent lintFunction in
  (length (calls run) <= 1)%nat /\
  (forall other, other <> filePath ->
     previousResults run !! other = store !! other) /\
  (isResolved (returned run) = false -> previousResults run = store).
Proof.
  unfold processChangedRegionsOnly.
  destruct (store !! filePath) as [cached|].
  - destruct (length _ =? 0)%nat; [simpl; repeat split; auto; lia|].
    destruct (majorityChanged _ _).
    + destruct (lintFunction newContent); simpl; repeat split; auto;
        try discriminate; intros other Hother; apply lookup_insert_ne; congruence.
    + destruct (lintFunction _); simpl; repeat split; auto;
        try discriminate; intros other Hother; apply lookup_insert_ne; congruence.
  - destruct (lintFunction newContent); simpl; repeat split; auto;
      try discriminate; intros other Hother; apply lookup_insert_ne; congruence.
Qed.

Lemma slice_from_to {A} (l : list A) a b :
  0 <= a <= b ->
  Text.slice l a b = take (Z.to_nat (b - a)) (drop (Z.to_nat a) l).
Proof.
  intros Hab. unfold Text.slice, Text.sliceIndex.
  destruct (Z.ltb_spec a 0); [lia|]. destruct (Z.ltb_spec b 0); [lia|].
  destruct (Z.le_gt_cases a (Z.of_nat (length l))) as [Ha|Ha].
  - rewrite (Z.min_l a) by lia.
    destruct (Z.le_gt_cases b (Z.of_nat (length l))) as [Hb|Hb].
    + rewrite Z.min_l by lia. reflexivity.
    + rewrite Z.min_r by lia.
      rewrite !take_ge; [reflexivity | rewrite length_drop; lia | rewrite length_drop; lia].
  - rewrite !Z.min_r by lia. rewrite Z.sub_diag, Nat2Z.id. simpl.
    rewrite (drop_ge l (Z.to_nat a)) by lia. rewrite take_nil. reflexivity.
Qed.

(** X6. With a single changed region, the line adjustment is exact: line
    [L] of the extracted text is line [start + L] of the new text (both
    1-based, the very same line of text), and [start + L] is what
    [adjustLineNumbers] puts on a finding reported on line [L]. *)
Theorem single_region_remap_exact newContent region (L : Z) :
  0 <= start region <= end_ region ->
  1 <= L <= Z.of_nat (Text.lineCount (extractRegionContent newContent [region])) ->
  adjustLine L [region] = start region + L /\
  Text.lineAt (Text.split (extractRegionContent newContent [region]))
    (Z.to_nat (L - 1))
  = Text.lineAt (Text.split newContent) (Z.to_nat (start region + L - 1)).
Proof.
  intros Hregion HL.
  assert (Hadjust : forall line, line <= end_ region - start region + 1 ->
                      adjustLine line [region] = start region + line)
    by (intros line Hline; apply adjustLine_first_region, Hline).
  unfold extractRegionContent in *. cbn [map concat] in *.
  rewrite app_nil_r in *.
  rewrite slice_from_to in * by lia.
  remember (Text.split newContent) as lines eqn:Hlines.
  remember (take (Z.to_nat (end_ region + 1 - start region))
              (drop (Z.to_nat (start region)) lines)) as extracted eqn:Hextracted.
  assert (Hclean : Forall (fun l => Text.hasNewline l = false) extracted)
    by (subst extracted lines; apply Forall_take, Forall_drop, split_no_newline).
  assert (Hlen : length extracted
                 = Nat.min (Z.to_nat (end_ region + 1 - start region))
                     (length lines - Z.to_nat (start region)))
    by (subst extracted; rewrite length_take, length_drop; reflexivity).
  unfold Text.lineCount in HL.
  destruct extracted as [|l ls].
  - cbn [Text.join Text.split length] in HL. assert (L = 1) by lia. subst L.
    split; [apply Hadjust; lia|].
    cbn [Text.join Text.split]. unfold Text.lineAt.
    simpl in Hlen.
    replace (start region + 1 - 1) with (start region) by lia.
    rewrite (lookup_ge_None_2 lines) by lia. reflexivity.
  - rewrite split_join in * by (assumption || discriminate).
    split; [apply Hadjust; lia|].
    unfold Text.lineAt. f_equal. rewrite Hextracted.
    rewrite lookup_take_lt by (simpl in *; lia). rewrite lookup_drop. f_equal. lia.
Qed.

(** X7. [clearCache(filePath)] with a non-empty path forgets that
    document only, and the next call for it is a first call: the analyzer
    receives the whole new text. [clearCache()] and [clearCache('')]
    forget every document. *)
Theorem clearCache_then_full_analysis now store filePath newContent lintFunction :
  filePath <> EmptyString ->
  let cleared := clearCache (Some filePath) store in
  let run := processChangedRegionsOnly now cleared filePath newContent lintFunction in
  calls run = [newContent] /\
  returned run = lintFunction newContent /\
  (forall other, other <> filePath -> cleared !! other = store !! other) /\
  clearCache None store = ∅ /\
  clearCache (Some EmptyString) store = ∅.
Proof.
  intros Hpath cleared run.
  assert (Hcleared : cleared = delete filePath store).
  { unfold cleared, clearCache. simpl.
    destruct (String.eqb_spec filePath EmptyString); [contradiction | reflexivity]. }
  assert (Hgone : cleared !! filePath = None)
    by (rewrite Hcleared; apply lookup_delete_eq).
  unfold run, processChangedRegionsOnly. rewrite Hgone.
  repeat split.
  - destruct (lintFunction newContent); reflexivity.
  - destruct (lintFunction newContent); reflexivity.
  - intros other Hother. rewrite Hcleared. apply lookup_delete_ne. congruence.
Qed.

End MoreDifferentialFacts.

(** On the twelve lines whose first and last line are rewritten, the last
    line (index 11) lies in a returned region. *)
Lemma every_differing_line_in_a_region_witness :
  exists r,
    r ∈ DifferentialProcessor.findChangedRegions twelveLines firstAndLastChanged 5 /\
    DifferentialProcessor.start r <= 11 <= DifferentialProcessor.end_ r.
Proof.
  apply (every_differing_line_in_a_region twelveLines firstAndLastChanged 5 11).
  - lia.
  - vm_compute. discriminate.
Defined.

(** Two empty lines are appended to a two-line snapshot: the findings
    come from the store and the snapshot stays the two-line text. *)
Lemma processChangedRegionsOnly_equal_lines_witness :
  let old := Text.join ["one"; "two"]%string in
  let new := Text.join ["one"; "two"; ""; ""]%string in
  let store : gmap string DifferentialProcessor.CachedResult :=
    {[ "note.md"%string := DifferentialProcessor.mkCached old [finding 2 None] 0 ]} in
  old <> new /\
  DifferentialProcessor.processChangedRegionsOnly 9 store "note.md" new markBad
  = DifferentialProcessor.mkRun [] (Resolved [finding 2 None]) store.
Proof.
  intros old new store. split; [vm_compute; discriminate|].
  apply (processChangedRegionsOnly_equal_lines 9 store "note.md" new markBad
           (DifferentialProcessor.mkCached old [finding 2 None] 0)).
  - apply lookup_singleton_eq.
  - intros i. do 4 (destruct i as [|i]; [reflexivity|]). reflexivity.
Defined.

(** The hundred lines with line index 50 changed, region [[45, 55]]: line
    6 of the extracted text is line 51 of the document. *)
Lemma single_region_remap_exact_witness :
  DifferentialProcessor.adjustLine 6 [DifferentialProcessor.mkRegion 45 55] = 51 /\
  Text.lineAt
    (Text.split (DifferentialProcessor.extractRegionContent oneBadLine
                   [DifferentialProcessor.mkRegion 45 55])) 5
  = Text.lineAt (Text.split oneBadLine) 50.
Proof.
  apply (single_region_remap_exact oneBadLine
           (DifferentialProcessor.mkRegion 45 55) 6).
  - simpl. lia.
  - vm_compute. split; discriminate.
Defined.

(** After [clearCache('note.md')] the next call for [note.md] analyses
    the whole text although it equals the forgotten snapshot. *)
Lemma clearCache_then_full_analysis_witness :
  let store : gmap string DifferentialProcessor.CachedResult :=
    {[ "note.md"%string := DifferentialProcessor.mkCached oneBadLine [] 0 ]} in
  DifferentialProcessor.calls
    (DifferentialProcessor.processChangedRegionsOnly 9
       (DifferentialProcessor.clearCache (Some "note.md"%string) store)
       "note.md" oneBadLine markBad)
  = [oneBadLine].
Proof.
  intros store.
  destruct (clearCache_then_full_analysis 9 store "note.md" oneBadLine markBad)
    as [Hcalls _]; [discriminate | exact Hcalls].
Defined.

(** ** Chunks and strategies *)

Section MoreChunkFacts.
Import AdaptiveProcessor.
Context {M : Type} `{Located M}.

Lemma chunkLoop_bounded fuel lines chunkSize (i : nat) :
  0 < chunkSize ->
  Forall (fun l => Text.hasNewline l = false) lines ->
  Forall (fun chunk => 1 <= Z.of_nat (Text.lineCount chunk) <= chunkSize)
    (chunkLoop fuel lines chunkSize (Z.of_nat i)).
Proof.
  intros Hsize Hlines. revert i.
  induction fuel as [|fuel IH]; intros i; simpl; [constructor|].
  destruct (Z.ltb_spec (Z.of_nat i) (Z.of_nat (length lines))) as [Hlt|Hge];
    [|constructor].
  constructor.
  - rewrite slice_chunk by lia. unfold Text.lineCount.
    rewrite split_join.
    + rewrite length_take, length_drop. lia.
    + intros Hnil. apply (f_equal length) in Hnil.
      rewrite length_take, length_drop in Hnil. simpl in Hnil. lia.
    + apply Forall_take, Forall_drop, Hlines.
  - replace (Z.of_nat i + chunkSize)
      with (Z.of_nat (i + Z.to_nat chunkSize)) by lia.
    apply IH.
Qed.

Lemma length_concat_split chunks :
  length (concat (map Text.split chunks)) = sum_list_with Text.lineCount chunks.
Proof.
  induction chunks as [|chunk chunks IH]; simpl; [reflexivity|].
  rewrite length_app, IH. reflexivity.
Qed.

(** X8. When [createProcessingChunks] returns, its chunks are the lines
    of the text cut in order into runs of at most [chunkSize] lines:
    splitting the chunks again gives back the lines of the text, every
    chunk has between 1 and [chunkSize] lines, and the line counts add up
    to the line count of the text. *)
Theorem createProcessingChunks_cuts_the_lines content chunkSize chunks :
  createProcessingChunks content chunkSize = Some chunks ->
  concat (map Text.split chunks) = Text.split content /\
  Forall (fun chunk => 1 <= Z.of_nat (Text.lineCount chunk) <= chunkSize) chunks /\
  sum_list_with Text.lineCount chunks = Text.lineCount content.
Proof.
  intros Hsome.
  pose proof (createProcessingChunks_partition _ _ _ Hsome) as Hpart.
  split; [exact Hpart|]. split.
  - unfold createProcessingChunks in Hsome.
    destruct (Z.ltb_spec 0 chunkSize); [|discriminate].
    injection Hsome as <-.
    apply (chunkLoop_bounded _ _ _ 0); [assumption | apply split_no_newline].
  - rewrite <- length_concat_split, Hpart. reflexivity.
Qed.

Lemma getOptimalStrategy_large content :
  1000 <= Z.of_nat (Text.lineCount content) ->
  exists size, chunkSize (getOptimalStrategy content) = Some size /\ 0 < size.
Proof.
  intros Hlarge. unfold getOptimalStrategy, STRATEGIES, below. simpl.
  destruct (Z.ltb_spec (Z.of_nat (Text.lineCount content)) 1000); [lia|].
  destruct (Z.ltb_spec (Z.of_nat (Text.lineCount content)) 5000);
    [eexists; split; [reflexivity | lia]|].
  destruct (Z.ltb_spec (Z.of_nat (Text.lineCount content)) 10000);
    eexists; (split; [reflexivity | lia]).
Qed.

(** X9. With the strategy that [getOptimalStrategy] selects for it, a
    text of a thousand lines or more is always analysed in chunks, and the
    run always resolves, whatever the analyzer does (rejects, never
    settles): it is never rejected and never left pending. *)
Theorem optimal_strategy_run_resolves content
  (processFunction : string -> Behaviour (AnyResult M)) :
  1000 <= Z.of_nat (Text.lineCount content) ->
  exists chunks merged,
    createProcessingChunks content
      (default 0 (chunkSize (getOptimalStrategy content))) = Some chunks /\
    processWithKuromojiOptimization content processFunction
      (getOptimalStrategy content)
    = Resolved (Some merged).
Proof.
  intros Hlarge.
  destruct (getOptimalStrategy_large content Hlarge) as (size & Hsize & Hpos).
  destruct (createProcessingChunks_positive content size Hpos) as [chunks Hchunks].
  exists chunks. eexists. rewrite Hsize. split; [exact Hchunks|].
  apply (chunked_run _ _ _ _ _ Hlarge Hsize Hchunks).
Qed.

Lemma runChunks_fulfilled_only (processFunction : string -> Behaviour (AnyResult M))
  timeout count (res : string -> AnyResult M) (ok : string -> bool) chunks :
  Forall (fun chunk =>
            (ok chunk = true ->
             raceTimer timeout count (ChunkTimeout timeout count)
               (processFunction chunk) = Fulfilled (res chunk)) /\
            (ok chunk = false ->
             exists e, raceTimer timeout count (ChunkTimeout timeout count)
                         (processFunction chunk) = Failed e)) chunks ->
  runChunks processFunction timeout count (chunkDataOf chunks)
  = chunkResults res (List.filter ok chunks).
Proof.
  induction 1 as [|chunk chunks [Hok Hfail] _ IH]; simpl; [reflexivity|].
  destruct (ok chunk).
  - rewrite (Hok eq_refl), IH. reflexivity.
  - destruct (Hfail eq_refl) as [e He]. rewrite He. exact IH.
Qed.

(** X10. In a chunked run the chunks whose wait is rejected leave no
    trace: the result is the merge of the fulfilled chunks alone, so the
    findings of a chunk are moved down by the lines of the fulfilled
    chunks before it only, and not by the lines of a skipped chunk. *)
Theorem skipped_chunks_do_not_count content
  (processFunction : string -> Behaviour (AnyResult M)) strategy
  chunkSize' chunks (res : string -> AnyResult M) (ok : string -> bool) :
  1000 <= Z.of_nat (Text.lineCount content) ->
  chunkSize strategy = Some chunkSize' ->
  createProcessingChunks content chunkSize' = Some chunks ->
  Forall (fun chunk =>
            (ok chunk = true ->
             raceTimer (processingTimeout strategy) (Z.of_nat (length chunks))
               (ChunkTimeout (processingTimeout strategy) (Z.of_nat (length chunks)))
               (processFunction chunk) = Fulfilled (res chunk)) /\
            (ok chunk = false ->
             exists e,
               raceTimer (processingTimeout strategy) (Z.of_nat (length chunks))
                 (ChunkTimeout (processingTimeout strategy) (Z.of_nat (length chunks)))
                 (processFunction chunk) = Failed e)) chunks ->
  let fulfilled := chunkResults res (List.filter ok chunks) in
  processWithKuromojiOptimization content processFunction strategy
  = Resolved (Some (mergeChunkResults fulfilled)) /\
  mergeLoop fulfilled 0 = rebasedFindings fulfilled.
Proof.
  intros Hlarge Hsize Hchunks Hall fulfilled.
  split; [|apply mergeLoop_rebased].
  rewrite (chunked_run _ _ _ _ _ Hlarge Hsize Hchunks).
  rewrite (runChunks_fulfilled_only _ _ _ res ok) by exact Hall. reflexivity.
Qed.

End MoreChunkFacts.

(** The 2500 empty lines in chunks of 1000: three chunks, of 1000, 1000
    and 500 lines. *)
Lemma createProcessingChunks_cuts_the_lines_witness :
  exists chunks,
    AdaptiveProcessor.createProcessingChunks (emptyLines 2500) 1000 = Some chunks /\
    map Text.lineCount chunks = [1000; 1000; 500]%nat /\
    concat (map Text.split chunks) = Text.split (emptyLines 2500).
Proof.
  pose (chunks := AdaptiveProcessor.chunkLoop 2500 (Text.split (emptyLines 2500)) 1000 0).
  assert (Hchunks : AdaptiveProcessor.createProcessingChunks (emptyLines 2500) 1000
                    = Some chunks) by (vm_compute; reflexivity).
  exists chunks. split; [exact Hchunks|].
  split; [vm_compute; reflexivity|].
  exact (proj1 (createProcessingChunks_cuts_the_lines (emptyLines 2500) 1000 chunks
                  Hchunks)).
Defined.

(** 2500 lines and an analyzer that never settles: the run resolves. *)
Lemma optimal_strategy_run_resolves_witness :
  exists chunks merged,
    AdaptiveProcessor.createProcessingChunks (emptyLines 2500)
      (default 0 (AdaptiveProcessor.chunkSize
                    (AdaptiveProcessor.getOptimalStrategy (emptyLines 2500))))
    = Some chunks /\
    AdaptiveProcessor.processWithKuromojiOptimization (emptyLines 2500) hang
      (AdaptiveProcessor.getOptimalStrategy (emptyLines 2500))
    = Resolved (Some merged).
Proof.
  apply (optimal_strategy_run_resolves (emptyLines 2500) hang).
  vm_compute. discriminate.
Defined.

(** 2500 lines and an analyzer that never settles on the two chunks of
    1000 lines and reports line 1 of the last chunk of 500: the finding
    of the third chunk is returned on line 1, not on line 2001. *)
Lemma skipped_chunks_do_not_count_witness :
  AdaptiveProcessor.processWithKuromojiOptimization (emptyLines 2500)
    reportShortOnly (AdaptiveProcessor.getOptimalStrategy (emptyLines 2500))
  = Resolved (Some (AdaptiveProcessor.mkResult (Some [kernelFinding 1])
                      (Some ""%string))).
Proof.
  pose (chunks := AdaptiveProcessor.chunkLoop 2500 (Text.split (emptyLines 2500)) 1000 0).
  destruct (skipped_chunks_do_not_count (emptyLines 2500) reportShortOnly
              (AdaptiveProcessor.getOptimalStrategy (emptyLines 2500)) 1000 chunks
              (fun _ => Some (AdaptiveProcessor.mkResult (Some [kernelFinding 1]) None))
              (fun chunk => (Text.lineCount chunk <? 1000)%nat))
    as [Hrun _].
  - vm_compute. discriminate.
  - vm_compute. reflexivity.
  - vm_compute. reflexivity.
  - apply Forall_forall. intros chunk _. unfold reportShortOnly. split; intros Hok.
    + rewrite Hok. reflexivity.
    + rewrite Hok. eexists. reflexivity.
  - rewrite Hrun. vm_compute. reflexivity.
Defined.

(** ** The cache and the fallback digest *)

Section MoreCacheFacts.
Context {T : Type}.

(** X11. A value written with [set] is what [get] returns for that key
    until its time to live has passed, whatever the key held before (the
    last write wins), and the write does not change what [get] returns
    for any other key. *)
Theorem cache_set_then_get now later key (value : T) hash (c : Cache.t T) :
  later - now <= Cache.ttl c ->
  Cache.get later key (Cache.set now key value hash c)
  = (Some value, Cache.set now key value hash c) /\
  forall other, other <> key ->
    (Cache.get later other (Cache.set now key value hash c)).1
    = (Cache.get later other c).1.
Proof.
  intros Hfresh. split.
  - rewrite (get_fresh later key _ (Cache.mkEntry value now hash));
      [reflexivity | apply lookup_insert_eq | simpl; lia].
  - intros other Hother. unfold Cache.get, Cache.set. simpl.
    rewrite lookup_insert_ne by congruence.
    destruct (Cache.cache c !! other) as [entry|]; [|reflexivity].
    destruct (_ <? _); reflexivity.
Qed.

(** X12. [isValidByHash] answers [true] exactly for a key that holds an
    entry with a non-empty digest equal to the queried one and not older
    than the time to live; and whenever it answers [true] it has not
    changed the cache, and [get] and [has] at that moment find the
    entry. *)
Theorem isValidByHash_true_iff now key currentHash (c : Cache.t T) :
  ((Cache.isValidByHash now key currentHash c).1 = true <->
   exists entry,
     Cache.cache c !! key = Some entry /\
     Cache.hash entry = Some currentHash /\ currentHash <> EmptyString /\
     now - Cache.timestamp entry <= Cache.ttl c) /\
  ((Cache.isValidByHash now key currentHash c).1 = true ->
   (Cache.isValidByHash now key currentHash c).2 = c /\
   (exists value, Cache.get now key c = (Some value, c)) /\
   Cache.has now key c = (true, c)).
Proof.
  unfold Cache.isValidByHash, Cache.get, Cache.has.
  destruct (Cache.cache c !! key) as [entry|] eqn:Hentry; simpl.
  - destruct (Cache.hash entry) as [h|] eqn:Hh; simpl.
    + destruct (String.eqb_spec h EmptyString) as [->|Hne]; simpl.
      * split; [|discriminate]. split; [discriminate|].
        intros (e & He & Hhash & Hnonempty & _).
        injection He as <-. congruence.
      * destruct (Z.ltb_spec (Cache.ttl c) (now - Cache.timestamp entry)); simpl.
        -- split; [|discriminate]. split; [discriminate|].
           intros (e & He & _ & _ & Hfresh). injection He as <-. lia.
        -- split.
           ++ rewrite bool_decide_eq_true. split.
              ** intros Heq. exists entry. injection Heq as <-.
                 repeat split; auto; lia.
              ** intros (e & He & Hhash & _). injection He as <-. congruence.
           ++ intros _. repeat split. eexists. reflexivity.
    + split; [|discriminate]. split; [discriminate|].
      intros (e & He & Hhash & _). injection He as <-. congruence.
  - split; [|discriminate]. split; [discriminate|].
    intros (e & He & _). discriminate.
Qed.

End MoreCacheFacts.

Section DigestFacts.
Import Cache.

Lemma toInt32_range z : - 2 ^ 31 <= toInt32 z < 2 ^ 31.
Proof.
  unfold toInt32. pose proof (Z.mod_pos_bound (z + 2 ^ 31) (2 ^ 32)). lia.
Qed.

Lemma toInt32_plus z k : toInt32 (z + k * 2 ^ 32) = toInt32 z.
Proof.
  unfold toInt32.
  replace (z + k * 2 ^ 32 + 2 ^ 31) with (z + 2 ^ 31 + k * 2 ^ 32) by lia.
  rewrite Z_mod_plus_full. reflexivity.
Qed.

Lemma toInt32_wraps z : exists k, toInt32 z = z + k * 2 ^ 32.
Proof.
  exists (- ((z + 2 ^ 31) / 2 ^ 32)). unfold toInt32.
  pose proof (Z.div_mod (z + 2 ^ 31) (2 ^ 32)). lia.
Qed.

Lemma simpleHash_step h c :
  toInt32 (toInt32 (Z.shiftl (toInt32 h) 5) - toInt32 h + c)
  = toInt32 (31 * h + c).
Proof.
  rewrite Z.shiftl_mul_pow2 by lia.
  destruct (toInt32_wraps h) as [k Hk]. rewrite Hk.
  destruct (toInt32_wraps ((h + k * 2 ^ 32) * 2 ^ 5)) as [k' Hk']. rewrite Hk'.
  replace ((h + k * 2 ^ 32) * 2 ^ 5 + k' * 2 ^ 32 - (h + k * 2 ^ 32) + c)
    with (31 * h + c + (31 * k + k') * 2 ^ 32) by lia.
  apply toInt32_plus.
Qed.

Lemma simpleHashLoop_horner units h :
  simpleHashLoop units (toInt32 h) = toInt32 (hornerHash units h).
Proof.
  revert h. induction units as [|c rest IH]; intros h; simpl; [reflexivity|].
  rewrite simpleHash_step. apply IH.
Qed.

(** X13. The number in the fallback digest is the polynomial hash of
    the UTF-16 code units of the text with multiplier 31, wrapped to a
    signed 32-bit integer: it always lies in [[-2^31, 2^31)]; and the
    digest of a text that is not empty is that number, an underscore and
    the number of code units. *)
Theorem generateSimpleHash_polynomial content :
  let units := Text.codeUnits content in
  simpleHashLoop units 0 = toInt32 (hornerHash units 0) /\
  - 2 ^ 31 <= simpleHashLoop units 0 < 2 ^ 31 /\
  (units <> [] ->
   generateSimpleHash content
   = (showZ (toInt32 (hornerHash units 0)) ++ "_"
      ++ showZ (Z.of_nat (length units)))%string).
Proof.
  intros units.
  assert (Hloop : simpleHashLoop units 0 = toInt32 (hornerHash units 0))
    by (apply (simpleHashLoop_horner units 0)).
  split; [exact Hloop|]. split; [rewrite Hloop; apply toInt32_range|].
  intros Hne. unfold generateSimpleHash. fold units.
  destruct units; [congruence|]. cbn [length Nat.eqb].
  rewrite Hloop. reflexivity.
Qed.

Lemma uint_no_underscore d : hasChar "_" (NilEmpty.string_of_uint d) = false.
Proof. induction d; simpl; auto. Qed.

Lemma showZ_no_underscore z : hasChar "_" (showZ z) = false.
Proof.
  unfold showZ, NilZero.string_of_int.
  destruct (Z.to_int z) as [d|d]; simpl;
    unfold NilZero.string_of_uint; destruct d; simpl;
    auto using uint_no_underscore.
Qed.

Lemma showZ_inj z1 z2 : showZ z1 = showZ z2 -> z1 = z2.
Proof.
  intros Heq. apply DecimalZ.to_int_inj.
  assert (Hproper : forall z, Z.to_int z <> Decimal.Pos Decimal.Nil /\
                              Z.to_int z <> Decimal.Neg Decimal.Nil).
  { intros [|p|p]; simpl; split; try discriminate;
      intros Hnil; injection Hnil as Hnil;
      exact (DecimalPos.Unsigned.to_uint_nonnil p Hnil). }
  pose proof (NilZero.isi (Z.to_int z1) (proj1 (Hproper z1)) (proj2 (Hproper z1))) as H1.
  pose proof (NilZero.isi (Z.to_int z2) (proj1 (Hproper z2)) (proj2 (Hproper z2))) as H2.
  unfold showZ in Heq. rewrite Heq in H1. congruence.
Qed.

Lemma append_separator_inj c x1 x2 y1 y2 :
  hasChar c x1 = false -> hasChar c x2 = false ->
  (x1 ++ String c y1 = x2 ++ String c y2)%string ->
  x1 = x2 /\ y1 = y2.
Proof.
  revert x2. induction x1 as [|a x1 IH]; intros x2 H1 H2 Heq.
  - destruct x2 as [|b x2]; simpl in *.
    + injection Heq as ->. auto.
    + injection Heq as <- _. rewrite Ascii.eqb_refl in H2. discriminate.
  - destruct x2 as [|b x2]; simpl in *.
    + injection Heq as -> _. rewrite Ascii.eqb_refl in H1. discriminate.
    + injection Heq as -> Heq.
      apply orb_false_iff in H1 as [_ H1]. apply orb_false_iff in H2 as [_ H2].
      destruct (IH x2 H1 H2 Heq) as [-> ->]. auto.
Qed.

Lemma hasChar_separator c x y : hasChar c (x ++ String c y) = true.
Proof.
  induction x as [|a x IH]; simpl.
  - rewrite Ascii.eqb_refl. reflexivity.
  - rewrite IH. apply orb_true_r.
Qed.

(** X14. Two texts with the same fallback digest have the same length
    in UTF-16 code units: the digest never confuses texts of different
    lengths. *)
Theorem generateSimpleHash_tells_lengths_apart a b :
  generateSimpleHash a = generateSimpleHash b ->
  length (Text.codeUnits a) = length (Text.codeUnits b).
Proof.
  unfold generateSimpleHash. cbv zeta.
  destruct (Text.codeUnits a) as [|ca unitsA], (Text.codeUnits b) as [|cb unitsB];
    cbn [length Nat.eqb]; [reflexivity | | |].
  - intros Heq. exfalso.
    pose proof (showZ_no_underscore 0) as Hnone. rewrite Heq in Hnone.
    change ("_" ++ ?y)%string with (String "_" y) in Hnone.
    rewrite hasChar_separator in Hnone. discriminate.
  - intros Heq. exfalso.
    pose proof (showZ_no_underscore 0) as Hnone. rewrite <- Heq in Hnone.
    change ("_" ++ ?y)%string with (String "_" y) in Hnone.
    rewrite hasChar_separator in Hnone. discriminate.
  - intros Heq.
    apply append_separator_inj in Heq as [_ Hlen];
      [|apply showZ_no_underscore | apply showZ_no_underscore].
    apply showZ_inj in Hlen. lia.
Qed.

End DigestFacts.

(** A result written at time 0 into the plugin's fresh result cache and
    read a minute later, within the ten minutes it lives. *)
Lemma cache_set_then_get_witness :
  let c : Cache.t (list TextlintMessage.t) := Cache.new (10 * 60 * 1000) in
  Cache.get 60000 "note.md_96354_3"
    (Cache.set 0 "note.md_96354_3" [finding 1 None] (Some "96354_3"%string) c)
  = (Some [finding 1 None],
     Cache.set 0 "note.md_96354_3" [finding 1 None] (Some "96354_3"%string) c).
Proof.
  intros c.
  apply (cache_set_then_get 0 60000 "note.md_96354_3" [finding 1 None]
           (Some "96354_3"%string) c).
  vm_compute. discriminate.
Defined.

(** The two Japanese texts differ and share the digest [395374_2]; they
    have two code units each (and six bytes). *)
Lemma generateSimpleHash_tells_lengths_apart_witness :
  aBa <> iKe /\
  Text.codeUnits aBa = [12354; 12400] /\
  Text.codeUnits iKe = [12355; 12369] /\
  Cache.generateSimpleHash aBa = "395374_2"%string /\
  length (Text.codeUnits aBa) = length (Text.codeUnits iKe).
Proof.
  split; [discriminate|]. split; [vm_compute; reflexivity|].
  split; [vm_compute; reflexivity|]. split; [vm_compute; reflexivity|].
  apply (generateSimpleHash_tells_lengths_apart aBa iKe).
  vm_compute. reflexivity.
Defined.

(** The digest reads UTF-16 code units: a kana of three bytes is one code
    unit, a character of two bytes is one, and a character outside the
    basic plane is a surrogate pair. *)
Lemma generateSimpleHash_code_units :
  Cache.generateSimpleHash "あ" = "12354_1"%string /\
  Text.codeUnits "é" = [233] /\
  Text.codeUnits "😀" = [55357; 56832] /\
  Cache.generateSimpleHash "😀" = "1772899_2"%string.
Proof. vm_compute. repeat split. Qed.

(** ** Repeated cycles, failed analyses and cache maintenance *)

Section MoreCycleFacts.
Import TextlintHighlightPlugin.
Variable generateContentHash : string -> string.
Variable lintText :
  string -> Behaviour (AdaptiveProcessor.AnyResult TextlintKernelMessage.t).

Lemma get_absent_stays {T} now later key (c : Cache.t T) :
  (Cache.get now key c).1 = None ->
  Cache.cache (Cache.get now key c).2 !! key = None /\
  (Cache.get later key (Cache.get now key c).2).1 = None.
Proof.
  unfold Cache.get.
  destruct (Cache.cache c !! key) as [entry|] eqn:Hentry.
  - destruct (Cache.ttl c <? now - Cache.timestamp entry); [|discriminate].
    intros _. cbn [fst snd Cache.cache Cache.ttl].
    rewrite lookup_delete_eq. split; reflexivity.
  - intros _. cbn [fst snd]. rewrite Hentry. split; reflexivity.
Qed.

Lemma start_unchanged now file content vault p :
  vault !! file = Some content ->
  lastProcessedFile p = Some file ->
  lastContentHash p = Some (generateContentHash content) ->
  let got := Cache.get now (cacheKey file (generateContentHash content))
               (resultCache p) in
  lintCurrentFile_start generateContentHash now (Some file) vault p
  = Finished (applyResults (default [] got.1) file (withCache got.2 p)).
Proof.
  intros Hread Hfile Hhash got. unfold lintCurrentFile_start.
  rewrite Hread, Hfile, Hhash.
  rewrite !bool_decide_eq_true_2 by reflexivity. simpl.
  subst got.
  destruct (Cache.get now _ (resultCache p)) as [[cached|] c]; reflexivity.
Qed.

(** X15. A cycle that finds the active document to be the one last
    processed, with the digest last processed, never goes to the
    analyzer: it displays what the result cache holds for the document,
    and an empty list when the cache holds nothing (no entry, or an
    expired one). It leaves the last processed file and digest as they
    are, so the next cycle on the unchanged document does the same. *)
Theorem unchanged_document_is_not_analysed now file content vault p :
  vault !! file = Some content ->
  lastProcessedFile p = Some file ->
  lastContentHash p = Some (generateContentHash content) ->
  let key := cacheKey file (generateContentHash content) in
  exists p',
    lintCurrentFile_start generateContentHash now (Some file) vault p = Finished p' /\
    lastProcessedFile p' = Some file /\
    lastContentHash p' = Some (generateContentHash content) /\
    resultCache p' = (Cache.get now key (resultCache p)).2 /\
    highlights p' = default [] (Cache.get now key (resultCache p)).1 /\
    view p' = Some (default [] (Cache.get now key (resultCache p)).1, file) /\
    ((Cache.get now key (resultCache p)).1 = None ->
     forall later, (Cache.get later key (resultCache p')).1 = None).
Proof.
  intros Hread Hfile Hhash key.
  pose proof (fun later => get_absent_stays now later key (resultCache p))
    as Hstays.
  eexists. split; [exact (start_unchanged now file content vault p Hread Hfile Hhash)|].
  fold key. simpl. repeat split; try assumption.
  intros Habsent later. apply (Hstays later). exact Habsent.
Qed.

Lemma get_ttl {T} now key (c : Cache.t T) :
  Cache.ttl (Cache.get now key c).2 = Cache.ttl c.
Proof.
  unfold Cache.get. destruct (Cache.cache c !! key); [|reflexivity].
  destruct (_ <? _); reflexivity.
Qed.

Lemma isValidByHash_ttl {T} now key currentHash (c : Cache.t T) :
  Cache.ttl (Cache.isValidByHash now key currentHash c).2 = Cache.ttl c.
Proof.
  unfold Cache.isValidByHash. destruct (Cache.cache c !! key); [|reflexivity].
  destruct (negb _); [reflexivity|]. destruct (_ <? _); reflexivity.
Qed.

Lemma start_analysing_last now activeFile vault p p' file content contentHash :
  lintCurrentFile_start generateContentHash now activeFile vault p
  = Analysing p' file content contentHash ->
  lastProcessedFile p' = Some file /\
  lastContentHash p' = Some contentHash /\
  Cache.ttl (resultCache p') = Cache.ttl (resultCache p) /\
  notices p' = notices p.
Proof.
  unfold lintCurrentFile_start.
  destruct activeFile as [f|]; [|discriminate].
  destruct (vault !! f) as [c|] eqn:Hread; [|discriminate].
  destruct (_ && _).
  - destruct (Cache.get _ _ _) as [[cached|] c0]; discriminate.
  - pose proof (isValidByHash_ttl now (cacheKey f (generateContentHash c))
                  (generateContentHash c) (resultCache p)) as Httl0.
    destruct (Cache.isValidByHash _ _ _ _) as [valid c0]. simpl in Httl0.
    pose proof (get_ttl now (cacheKey f (generateContentHash c)) c0) as Httl1.
    destruct valid.
    + destruct (Cache.get _ _ _) as [[cached|] c1]; [discriminate|].
      simpl in Httl1. intros Heq. injection Heq as <- <- <- <-. simpl.
      repeat split. congruence.
    + intros Heq. injection Heq as <- <- <- <-. simpl.
      repeat split. congruence.
Qed.

(** X16. Once a cycle has analysed a document and the analysis has
    resolved, a further cycle on the unchanged document within the time
    to live of the result cache does not analyse again: it displays the
    same findings, from the cache. *)
Theorem repeated_cycle_serves_the_cache nowAtStart nowAtCompletion nowAgain
  activeFile vaultAtStart vaultAtCompletion vaultAgain
  p p' file content contentHash found path :
  lintCurrentFile_start generateContentHash nowAtStart activeFile vaultAtStart p
  = Analysing p' file content contentHash ->
  AdaptiveProcessor.processWithKuromojiOptimization content lintText
    (AdaptiveProcessor.getOptimalStrategy content)
  = Resolved (Some (AdaptiveProcessor.mkResult (Some found) path)) ->
  nowAgain - nowAtCompletion <= Cache.ttl (resultCache p) ->
  vaultAgain !! file = Some content ->
  let after :=
    lintCurrentFile generateContentHash lintText nowAtStart nowAtCompletion
      activeFile vaultAtStart vaultAtCompletion p in
  exists again,
    lintCurrentFile_start generateContentHash nowAgain (Some file) vaultAgain after
    = Finished again /\
    highlights again = map fromKernel found /\
    view again = Some (map fromKernel found, file) /\
    resultCache again = resultCache after.
Proof.
  intros Hstart Hrun Hfresh Hread after.
  destruct (lintCurrentFile_start_analysing _ _ _ _ _ _ _ _ _ Hstart)
    as (_ & _ & Hhash & _).
  destruct (start_analysing_last _ _ _ _ _ _ _ _ Hstart)
    as (Hfile & Hlast & Httl & _).
  assert (Hafter : after
                   = applyResults (map fromKernel found) file
                       (withCache
                          (Cache.set nowAtCompletion (cacheKey file contentHash)
                             (map fromKernel found) (Some contentHash)
                             (resultCache p')) p')).
  { unfold after, lintCurrentFile. rewrite Hstart, Hrun. reflexivity. }
  subst contentHash.
  pose proof (start_unchanged nowAgain file content vaultAgain after Hread) as Hagain.
  cbv zeta in Hagain.
  specialize (Hagain ltac:(rewrite Hafter; exact Hfile)
                     ltac:(rewrite Hafter; exact Hlast)).
  assert (Hget : Cache.get nowAgain (cacheKey file (generateContentHash content))
                   (resultCache after)
                 = (Some (map fromKernel found), resultCache after)).
  { rewrite Hafter. simpl.
    apply (get_fresh nowAgain _ _
             (Cache.mkEntry (map fromKernel found) nowAtCompletion
                (Some (generateContentHash content))));
      [apply lookup_insert_eq | simpl; lia]. }
  rewrite Hget in Hagain. eexists. split; [exact Hagain|].
  repeat split.
Qed.

(** X17. When the analysis of a cycle is rejected, exactly one notice
    is added, the notice of that error; when it never settles no notice is
    added. In both cases the highlights, the result view and the result
    cache stay as the cycle found them, and the document already counts
    as the one last processed, so that it is not analysed again while it
    is unchanged. *)
Theorem failed_analysis_keeps_the_display nowAtStart nowAtCompletion activeFile
  vaultAtStart vaultAtCompletion p p' file content contentHash :
  lintCurrentFile_start generateContentHash nowAtStart activeFile vaultAtStart p
  = Analysing p' file content contentHash ->
  let analysis :=
    AdaptiveProcessor.processWithKuromojiOptimization content lintText
      (AdaptiveProcessor.getOptimalStrategy content) in
  let after :=
    lintCurrentFile generateContentHash lintText nowAtStart nowAtCompletion
      activeFile vaultAtStart vaultAtCompletion p in
  (forall e, analysis = Rejected e -> notices after = e :: notices p) /\
  (analysis = Unsettled -> notices after = notices p) /\
  ((forall result, analysis <> Resolved result) ->
   highlights after = highlights p /\
   view after = view p /\
   resultCache after = resultCache p' /\
   lastProcessedFile after = Some file /\
   lastContentHash after = Some (generateContentHash content)).
Proof.
  intros Hstart analysis after.
  destruct (lintCurrentFile_start_analysing _ _ _ _ _ _ _ _ _ Hstart)
    as (_ & _ & Hhash & Hshown & Hview).
  destruct (start_analysing_last _ _ _ _ _ _ _ _ Hstart)
    as (Hfile & Hlast & _ & Hnotices).
  unfold after, lintCurrentFile. rewrite Hstart. fold analysis.
  destruct analysis as [result|e|]; cbn [lintCurrentFile_complete].
  - split; [discriminate|]. split; [discriminate|].
    intros Hfail. exfalso. exact (Hfail result eq_refl).
  - split; [intros e' [= <-]; simpl; rewrite Hnotices; reflexivity|].
    split; [discriminate|]. intros _. simpl. subst contentHash.
    repeat split; auto.
  - split; [discriminate|]. split; [intros _; exact Hnotices|].
    intros _. subst contentHash. repeat split; auto.
Qed.

(** X18. [saveSettings] on a document that is unchanged since it was
    last processed empties the highlights and the result view and does
    not analyse the document with the new settings: the result cache has
    been cleared, but the last processed file and digest have not, and
    the cycle takes the document for a repetition. *)
Theorem saveSettings_empties_the_display nowAtStart nowAtCompletion file content
  vaultAtStart vaultAtCompletion p :
  vaultAtStart !! file = Some content ->
  lastProcessedFile p = Some file ->
  lastContentHash p = Some (generateContentHash content) ->
  let after :=
    PluginMaintenance.saveSettings generateContentHash lintText nowAtStart
      nowAtCompletion (Some file) vaultAtStart vaultAtCompletion p in
  lintCurrentFile_start generateContentHash nowAtStart (Some file) vaultAtStart
    (PluginMaintenance.saveSettings_clear p)
  = Finished after /\
  highlights after = [] /\
  view after = Some ([], file).
Proof.
  intros Hread Hfile Hhash after.
  pose proof (start_unchanged nowAtStart file content vaultAtStart
                (PluginMaintenance.saveSettings_clear p) Hread Hfile Hhash)
    as Hstart.
  cbv zeta in Hstart.
  assert (Hget : Cache.get nowAtStart (cacheKey file (generateContentHash content))
                   (resultCache (PluginMaintenance.saveSettings_clear p))
                 = (None, resultCache (PluginMaintenance.saveSettings_clear p))).
  { unfold PluginMaintenance.saveSettings_clear, Cache.get, Cache.clear. simpl.
    rewrite lookup_empty. reflexivity. }
  rewrite Hget in Hstart.
  assert (Hafter : after
                   = applyResults [] file
                       (withCache (resultCache (PluginMaintenance.saveSettings_clear p))
                          (PluginMaintenance.saveSettings_clear p))).
  { unfold after, PluginMaintenance.saveSettings, lintCurrentFile.
    rewrite Hstart. reflexivity. }
  rewrite Hafter. split; [exact Hstart|]. split; reflexivity.
Qed.

(** X19. After [clearCache] the next cycle on a readable active document
    always goes to the analyzer, with the text of the document and its
    digest, whatever was processed or cached before. *)
Theorem clearCache_forces_analysis now file content vault p :
  vault !! file = Some content ->
  exists p',
    lintCurrentFile_start generateContentHash now (Some file) vault
      (PluginMaintenance.clearCache p)
    = Analysing p' file content (generateContentHash content) /\
    highlights p' = highlights p /\ view p' = view p.
Proof.
  intros Hread. unfold lintCurrentFile_start, PluginMaintenance.clearCache.
  rewrite Hread. simpl.
  unfold Cache.isValidByHash, Cache.clear. simpl. rewrite lookup_empty.
  eexists. split; [reflexivity|]. split; reflexivity.
Qed.

End MoreCycleFacts.

(** [note.md] is unchanged since it was processed and the cache holds
    nothing for it: the cycle returns at once and the one finding on
    display is gone. *)
Lemma unchanged_document_is_not_analysed_witness :
  TextlintHighlightPlugin.highlights processedPlugin = [finding 1 None] /\
  exists p',
    TextlintHighlightPlugin.lintCurrentFile_start Cache.generateSimpleHash 7
      (Some "note.md"%string) firstDraft processedPlugin
    = TextlintHighlightPlugin.Finished p' /\
    TextlintHighlightPlugin.highlights p' = [].
Proof.
  split; [reflexivity|].
  destruct (unchanged_document_is_not_analysed Cache.generateSimpleHash 7 "note.md"
              "first draft" firstDraft processedPlugin)
    as (p' & Hstart & _ & _ & _ & Hshown & _).
  - apply lookup_singleton_eq.
  - reflexivity.
  - reflexivity.
  - exists p'. split; [exact Hstart|]. rewrite Hshown.
    vm_compute. reflexivity.
Defined.

(** A cycle on [first draft] with the analyzer that reports line 1, and
    a second cycle a second later: the second one returns at once with the
    same finding on display. *)
Lemma repeated_cycle_serves_the_cache_witness :
  let after :=
    TextlintHighlightPlugin.lintCurrentFile Cache.generateSimpleHash
      (reportLineOne 0) 0 1 (Some "note.md"%string) firstDraft firstDraft
      freshPlugin in
  exists again,
    TextlintHighlightPlugin.lintCurrentFile_start Cache.generateSimpleHash 1001
      (Some "note.md"%string) firstDraft after
    = TextlintHighlightPlugin.Finished again /\
    TextlintHighlightPlugin.highlights again
    = [TextlintHighlightPlugin.fromKernel (kernelFinding 1)].
Proof.
  intros after.
  destruct (repeated_cycle_serves_the_cache Cache.generateSimpleHash (reportLineOne 0)
              0 1 1001 (Some "note.md"%string) firstDraft firstDraft firstDraft
              freshPlugin
              (TextlintHighlightPlugin.withLast "note.md"
                 (Cache.generateSimpleHash "first draft") freshPlugin)
              "note.md" "first draft" (Cache.generateSimpleHash "first draft")
              [kernelFinding 1] None)
    as (again & Hagain & Hshown & _).
  - vm_compute. reflexivity.
  - vm_compute. reflexivity.
  - vm_compute. discriminate.
  - apply lookup_singleton_eq.
  - exists again. split; [exact Hagain | exact Hshown].
Defined.

(** A cycle whose analyzer rejects: the error is shown in a notice, the
    finding that was on display stays, and [note.md] counts as
    processed. *)
Lemma failed_analysis_keeps_the_display_witness :
  let shown :=
    TextlintHighlightPlugin.applyResults [finding 1 None] "other.md" freshPlugin in
  let after :=
    TextlintHighlightPlugin.lintCurrentFile Cache.generateSimpleHash failing 0 1
      (Some "note.md"%string) firstDraft firstDraft shown in
  TextlintHighlightPlugin.notices after = [AnalyzerError "analysis failed"] /\
  TextlintHighlightPlugin.highlights after = [finding 1 None] /\
  TextlintHighlightPlugin.lastProcessedFile after = Some "note.md"%string.
Proof.
  intros shown after.
  destruct (failed_analysis_keeps_the_display Cache.generateSimpleHash failing 0 1
              (Some "note.md"%string) firstDraft firstDraft shown
              (TextlintHighlightPlugin.withLast "note.md"
                 (Cache.generateSimpleHash "first draft") shown)
              "note.md" "first draft" (Cache.generateSimpleHash "first draft"))
    as (Hnotice & _ & Hkept).
  - vm_compute. reflexivity.
  - destruct Hkept as (Hshown & _ & _ & Hfile & _).
    + intros result. vm_compute. discriminate.
    + split; [|split; [exact Hshown | exact Hfile]].
      apply (Hnotice (AnalyzerError "analysis failed")). reflexivity.
Defined.

(** Settings are saved while [note.md] is unchanged since it was
    processed: the finding on display is gone and nothing is analysed,
    although the analyzer at hand would report a finding. *)
Lemma saveSettings_empties_the_display_witness :
  let after :=
    PluginMaintenance.saveSettings Cache.generateSimpleHash (reportLineOne 0)
      5 6 (Some "note.md"%string) firstDraft firstDraft processedPlugin in
  TextlintHighlightPlugin.highlights processedPlugin = [finding 1 None] /\
  TextlintHighlightPlugin.highlights after = [] /\
  TextlintHighlightPlugin.view after = Some ([], "note.md"%string).
Proof.
  intros after. split; [reflexivity|].
  destruct (saveSettings_empties_the_display Cache.generateSimpleHash
              (reportLineOne 0) 5 6 "note.md" "first draft" firstDraft firstDraft
              processedPlugin)
    as (_ & Hshown & Hview).
  - apply lookup_singleton_eq.
  - reflexivity.
  - reflexivity.
  - split; [exact Hshown | exact Hview].
Defined.

(** After [clearCache] the cycle on the unchanged [note.md] goes to the
    analyzer. *)
Lemma clearCache_forces_analysis_witness :
  exists p',
    TextlintHighlightPlugin.lintCurrentFile_start Cache.generateSimpleHash 7
      (Some "note.md"%string) firstDraft (PluginMaintenance.clearCache processedPlugin)
    = TextlintHighlightPlugin.Analysing p' "note.md" "first draft"
        (Cache.generateSimpleHash "first draft") /\
    TextlintHighlightPlugin.highlights p' = [finding 1 None].
Proof.
  destruct (clearCache_forces_analysis Cache.generateSimpleHash 7 "note.md"
              "first draft" firstDraft processedPlugin)
    as (p' & Hstart & Hshown & _).
  - apply lookup_singleton_eq.
  - exists p'. split; [exact Hstart | exact Hshown].
Defined.

(** ** Debouncer and throttler *)

Section SchedulingFacts.
Import MemoryManager.









Lemma throttler_cons interval st now later :
  throttler interval st (now :: later)
  = (throttleAdvance now st).1
    ++ (throttleCall interval now (throttleAdvance now st).2).1
    ++ throttler interval
         (throttleCall interval now (throttleAdvance now st).2).2 later.
Proof.
  cbn [throttler]. destruct (throttleAdvance now st) as [fired st1].
  cbn [fst snd]. destruct (throttleCall interval now st1) as [ran st2].
  reflexivity.
Qed.

(** One call at [now], with the timer firing first if it is due: either
    the callback runs at [now], or the call is queued behind a timer that
    is due later. *)
Lemma throttle_step interval now st :
  throttleIdle st ->
  let out := (throttleAdvance now st).1
             ++ (throttleCall interval now (throttleAdvance now st).2).1 in
  let st2 := (throttleCall interval now (throttleAdvance now st).2).2 in
  throttleIdle st2 /\
  (now ∈ out \/
   exists due, timer st = Some due /\ now < due /\
               st2 = mkThrottle false true (Some due)) /\
  (forall due, timer st2 = Some due ->
     due = now + interval \/ timer st = Some due) /\
  (length out + (if queued st2 then 1 else 0)
   <= 1 + (if queued st then 1 else 0))%nat.
Proof.
  intros [[Hidle1 Hidle2] Hqueue].
  destruct st as [can q [due|]]; simpl in *.
  - assert (can = false)
      by (destruct can; [specialize (Hidle1 eq_refl); discriminate | reflexivity]).
    subst can. unfold throttleAdvance, throttleCall, throttleExpire. simpl.
    destruct (Z.leb_spec due now) as [Hle|Hgt]; [destruct q|]; simpl.
    + split; [split; [split|]; discriminate|].
      split; [left; set_solver|]. split; [|lia].
      intros d Hd. injection Hd as <-. left. reflexivity.
    + split; [split; [split|]; discriminate|].
      split; [left; set_solver|]. split; [|lia].
      intros d Hd. injection Hd as <-. left. reflexivity.
    + split; [split; [split|]; simpl; congruence|].
      split; [right; exists due; auto|]. split; [intros d Hd; right; exact Hd|].
      destruct q; simpl; lia.
  - assert (can = true) by (apply Hidle2; reflexivity). subst can.
    rewrite (Hqueue eq_refl).
    unfold throttleAdvance, throttleCall, throttleExpire. simpl.
    split; [split; [split|]; discriminate|].
    split; [left; set_solver|]. split; [|lia].
    intros d Hd. injection Hd as <-. left. reflexivity.
Qed.

Lemma throttler_timer_fires interval calls due :
  due ∈ throttler interval (mkThrottle false true (Some due)) calls.
Proof.
  induction calls as [|now later IH].
  - simpl. left.
  - rewrite throttler_cons. unfold throttleAdvance, throttleExpire. simpl.
    destruct (due <=? now); simpl; [left|].
    exact IH.
Qed.

Lemma throttler_serves interval st calls t :
  0 <= interval ->
  throttleIdle st ->
  StronglySorted Z.le calls ->
  (forall due, timer st = Some due -> Forall (fun u => due <= u + interval) calls) ->
  t ∈ calls ->
  exists c, c ∈ throttler interval st calls /\ t <= c <= t + interval.
Proof.
  intros Hinterval Hidle Hsorted. revert st Hidle.
  induction Hsorted as [|now later Hlater IH Hnow]; intros st Hidle Hbound Ht.
  - inversion Ht.
  - rewrite throttler_cons.
    destruct (throttle_step interval now st Hidle) as (Hidle2 & Hnowrun & Htimer & _).
    set (st2 := (throttleCall interval now (throttleAdvance now st).2).2) in *.
    apply elem_of_cons in Ht as [->|Ht].
    + destruct Hnowrun as [Hrun|(due & Hdue & Hlater' & Hst2)].
      * exists now. split; [|lia].
        rewrite app_assoc. apply elem_of_app. left. exact Hrun.
      * exists due. split.
        -- rewrite app_assoc. apply elem_of_app. right. rewrite Hst2.
           apply throttler_timer_fires.
        -- specialize (Hbound due Hdue).
           apply Forall_cons in Hbound as [Hb _]. lia.
    + destruct (IH st2 Hidle2) as (c & Hc & Hrange); [|exact Ht|].
      * intros due Hdue. destruct (Htimer due Hdue) as [->|Hold].
        -- eapply Forall_impl; [exact Hnow|]. simpl. intros u Hu. lia.
        -- specialize (Hbound due Hold).
           apply Forall_cons in Hbound as [_ Hb]. exact Hb.
      * exists c. split; [|exact Hrange].
        rewrite app_assoc. apply elem_of_app. right. exact Hc.
Qed.

Lemma throttler_count interval st calls :
  throttleIdle st ->
  (length (throttler interval st calls)
   <= length calls + (if queued st then 1 else 0))%nat.
Proof.
  revert st. induction calls as [|now later IH]; intros st Hidle.
  - simpl. destruct (timer st); [|simpl; lia].
    unfold throttleExpire. destruct (queued st); simpl; lia.
  - rewrite throttler_cons.
    destruct (throttle_step interval now st Hidle) as (Hidle2 & _ & _ & Hcount).
    specialize (IH _ Hidle2). rewrite app_assoc, length_app. simpl length. lia.
Qed.

(** X22. For calls of the throttled function at ascending times, no call
    is lost and none is served late: after every call the callback runs
    at the moment of the call or within [interval] after it; and the
    callback never runs more often than the function was called. *)
Theorem throttler_serves_every_call interval calls :
  0 <= interval ->
  StronglySorted Z.le calls ->
  (forall t, t ∈ calls ->
     exists c, c ∈ createThrottler interval calls /\ t <= c <= t + interval) /\
  (length (createThrottler interval calls) <= length calls)%nat.
Proof.
  intros Hinterval Hsorted.
  assert (Hidle : throttleIdle (mkThrottle true false None))
    by (split; [split; reflexivity | reflexivity]).
  split.
  - intros t Ht. apply throttler_serves; try assumption. intros due Hdue.
    discriminate.
  - pose proof (throttler_count interval _ calls Hidle) as Hcount.
    simpl in Hcount. unfold createThrottler. lia.
Qed.

End SchedulingFacts.



(** Saves at 0, 50 and 120 with the plugin's interval of 200 ms: a run
    at 0 and one at 200. *)
Lemma throttler_serves_every_call_witness :
  MemoryManager.createThrottler 200 [0; 50; 120] = [0; 200] /\
  exists c, c ∈ MemoryManager.createThrottler 200 [0; 50; 120] /\ 50 <= c <= 50 + 200.
Proof.
  split; [reflexivity|].
  apply (proj1 (throttler_serves_every_call 200 [0; 50; 120] ltac:(lia)
                  ltac:(repeat constructor; lia)) 50).
  set_solver.
Defined.

(** ** The settings key and the rule memo *)

Section SettingsKeyFacts.
Import RuleLoader.

Lemma filter_parts flags names :
  length flags = length names ->
  Forall plainName names ->
  List.filter (fun p => negb (String.eqb p EmptyString))
    (zip_with part flags names)
  = selected flags names.
Proof.
  revert names. induction flags as [|flag flags IH]; intros [|name names] Hlen Hplain;
    try discriminate; [reflexivity|].
  apply Forall_cons in Hplain as [[Hname _] Hplain]. simpl.
  destruct flag; simpl.
  - destruct (String.eqb_spec name EmptyString); [contradiction|]. simpl.
    f_equal. apply IH; [simpl in Hlen; lia | exact Hplain].
  - apply IH; [simpl in Hlen; lia | exact Hplain].
Qed.

Lemma selected_plain flags names :
  Forall plainName names -> Forall plainName (selected flags names).
Proof.
  revert names. induction flags as [|flag flags IH]; intros [|name names] Hplain;
    try constructor.
  apply Forall_cons in Hplain as [Hname Hplain]. simpl.
  destruct flag; [constructor; auto | auto].
Qed.

Lemma selected_sublist flags names name :
  name ∈ selected flags names -> name ∈ names.
Proof.
  revert names. induction flags as [|flag flags IH]; intros [|n names] Hin;
    try (inversion Hin; fail).
  simpl in Hin. destruct flag.
  - apply elem_of_cons in Hin as [->|Hin]; [left | right; auto].
  - right. auto.
Qed.

Lemma selected_inj flags1 flags2 names :
  length flags1 = length names -> length flags2 = length names ->
  NoDup names ->
  selected flags1 names = selected flags2 names -> flags1 = flags2.
Proof.
  revert flags2 names.
  induction flags1 as [|f1 flags1 IH]; intros [|f2 flags2] [|name names] H1 H2 Hnodup Heq;
    try discriminate; [reflexivity|].
  apply NoDup_cons in Hnodup as [Hfresh Hnodup].
  simpl in H1, H2, Heq.
  assert (Hsame : f1 = f2).
  { destruct f1, f2; try reflexivity; exfalso; apply Hfresh.
    - apply (selected_sublist flags2). rewrite <- Heq. left.
    - apply (selected_sublist flags1). rewrite Heq. left. }
  subst f2. f_equal. apply (IH flags2 names); try lia; [exact Hnodup|].
  destruct f1; [injection Heq as Heq|]; exact Heq.
Qed.

Lemma hasChar_app c x y : hasChar c (x ++ y) = hasChar c x || hasChar c y.
Proof.
  induction x as [|a x IH]; simpl; [reflexivity|].
  rewrite IH. apply orb_assoc.
Qed.

Lemma joinWith_cons2 p q rest :
  joinWith "_" (p :: q :: rest) = (p ++ String "_" (joinWith "_" (q :: rest)))%string.
Proof. reflexivity. Qed.

Lemma joinWith_inj l1 l2 :
  Forall plainName l1 -> Forall plainName l2 ->
  joinWith "_" l1 = joinWith "_" l2 -> l1 = l2.
Proof.
  intros Hp1. revert l2. induction Hp1 as [|p l1 [Hp Hpu] Hl1 IH]; intros l2 Hp2 Heq.
  - destruct Hp2 as [|q l2 [Hq Hqu] Hl2]; [reflexivity|].
    destruct l2 as [|q' l2].
    + simpl in Heq. congruence.
    + rewrite joinWith_cons2 in Heq. simpl in Heq.
      destruct q; [congruence | discriminate].
  - destruct Hp2 as [|q l2 [Hq Hqu] Hl2].
    + destruct l1 as [|p' l1].
      * simpl in Heq. congruence.
      * rewrite joinWith_cons2 in Heq. simpl in Heq.
        destruct p; [congruence | discriminate].
    + destruct l1 as [|p' l1], l2 as [|q' l2].
      * simpl in Heq. congruence.
      * rewrite joinWith_cons2 in Heq. cbn [joinWith] in Heq. exfalso.
        rewrite Heq in Hpu. rewrite hasChar_separator in Hpu. discriminate.
      * rewrite joinWith_cons2 in Heq. cbn [joinWith] in Heq. exfalso.
        rewrite <- Heq in Hqu. rewrite hasChar_separator in Hqu. discriminate.
      * rewrite !joinWith_cons2 in Heq.
        apply append_separator_inj in Heq as [-> Heq]; [|assumption..].
        f_equal. apply IH; assumption.
Qed.

Lemma joinWith_plain (l : list string) (name : string) :
  Forall plainName l -> hasChar "_" name = false -> name <> EmptyString ->
  joinWith "_" l = name -> l = [name].
Proof.
  intros Hl Hname Hne Heq.
  apply (joinWith_inj l [name]); [exact Hl | | exact Heq].
  constructor; [split; assumption | constructor].
Qed.

Lemma toggleNames_plain : Forall plainName toggleNames.
Proof. repeat constructor; discriminate. Qed.

Lemma toggleNames_NoDup : NoDup toggleNames.
Proof.
  unfold toggleNames.
  repeat (apply NoDup_cons_2;
          [rewrite ?elem_of_cons, elem_of_nil; intuition discriminate|]).
  apply NoDup_nil_2.
Qed.

Lemma generateSettingsKey_selected settings :
  generateSettingsKey settings
  = let joined := joinWith "_" (selected (ruleToggles settings) toggleNames) in
    if String.eqb joined EmptyString then "empty"%string else joined.
Proof.
  unfold generateSettingsKey.
  change (keyParts settings) with (zip_with part (ruleToggles settings) toggleNames).
  rewrite filter_parts; [reflexivity | reflexivity | apply toggleNames_plain].
Qed.

Lemma generateSettingsKey_toggles settings1 settings2 :
  ruleToggles settings1 = ruleToggles settings2 ->
  generateSettingsKey settings1 = generateSettingsKey settings2.
Proof.
  intros Heq. rewrite !generateSettingsKey_selected, Heq. reflexivity.
Qed.

(** X23. Two settings get the same key from [generateSettingsKey]
    exactly when they agree on the fourteen preset and rule toggles: the
    key tells any two rule selections apart, and it does not depend on
    [enableDebugLog] or [useKuromoji]. *)
Theorem generateSettingsKey_inj settings1 settings2 :
  generateSettingsKey settings1 = generateSettingsKey settings2 <->
  ruleToggles settings1 = ruleToggles settings2.
Proof.
  rewrite !generateSettingsKey_selected. cbv zeta. split.
  - intros Heq.
    apply (selected_inj _ _ toggleNames); [reflexivity | reflexivity |
                                           apply toggleNames_NoDup |].
    pose proof (selected_plain (ruleToggles settings1) _ toggleNames_plain) as Hp1.
    pose proof (selected_plain (ruleToggles settings2) _ toggleNames_plain) as Hp2.
    assert (Hnot : forall flags,
              joinWith "_" (selected flags toggleNames) <> "empty"%string).
    { intros flags Hjoin.
      apply joinWith_plain in Hjoin;
        [|apply selected_plain, toggleNames_plain | reflexivity | discriminate].
      assert (Hin : "empty"%string ∈ toggleNames)
        by (apply (selected_sublist flags); rewrite Hjoin; left).
      unfold toggleNames in Hin. rewrite !elem_of_cons, elem_of_nil in Hin.
      intuition discriminate. }
    destruct (String.eqb_spec (joinWith "_" (selected (ruleToggles settings1)
                                               toggleNames)) EmptyString) as [H1|H1];
      destruct (String.eqb_spec (joinWith "_" (selected (ruleToggles settings2)
                                                 toggleNames)) EmptyString) as [H2|H2].
    + apply joinWith_inj; [assumption..|congruence].
    + exfalso. apply (Hnot (ruleToggles settings2)). congruence.
    + exfalso. apply (Hnot (ruleToggles settings1)). congruence.
    + apply joinWith_inj; assumption.
  - intros Heq. rewrite Heq. reflexivity.
Qed.

Section MemoFacts.
Variable TextlintRule : Type.

(** X24. After [loadRules] has run the loaders for some settings, a
    later call within the time to live of the memo, for settings with the
    same preset and rule toggles, returns the very same rule list without
    running any loader and leaves the memo as it is. *)
Theorem loadRules_memo (loadFirst loadLater : TextlintPluginSettings -> list TextlintRule)
  now later settings settings' (cache : Cache.t (list TextlintRule)) :
  let first := loadRules TextlintRule loadFirst now settings cache in
  loadersRan TextlintRule first = true ->
  ruleToggles settings' = ruleToggles settings ->
  later - now <= Cache.ttl cache ->
  loadRules TextlintRule loadLater later settings' (rulesCache TextlintRule first)
  = mkLoaded TextlintRule (rules TextlintRule first) false
      (rulesCache TextlintRule first).
Proof.
  intros first Hran Htoggles Hfresh.
  assert (Hkey : generateSettingsKey settings' = generateSettingsKey settings)
    by (apply generateSettingsKey_toggles, Htoggles).
  unfold first, loadRules in *. rewrite Hkey.
  set (key := generateSettingsKey settings) in *.
  pose proof (fun c : Cache.t (list TextlintRule) => get_ttl now key c) as Httl.
  assert (Hhas : Cache.ttl (Cache.has now key cache).2 = Cache.ttl cache).
  { unfold Cache.has. destruct (Cache.cache cache !! key); [|reflexivity].
    destruct (_ <? _); reflexivity. }
  destruct (Cache.has now key cache) as [present cache1]. simpl in Hhas.
  assert (Hget : Cache.ttl (if present then Cache.get now key cache1
                            else (None, cache1)).2 = Cache.ttl cache).
  { destruct present; [rewrite Httl|]; exact Hhas. }
  destruct (if present then Cache.get now key cache1 else (None, cache1))
    as [[cached|] cache2]; [discriminate|]. simpl in *.
  set (stored := Cache.set now key (loadFirst settings) None cache2).
  assert (Hlookup : Cache.cache stored !! key
                    = Some (Cache.mkEntry (loadFirst settings) now None))
    by apply lookup_insert_eq.
  unfold Cache.has, Cache.get. rewrite Hlookup. simpl.
  destruct (Z.ltb_spec (Cache.ttl cache2) (later - now)); [lia|].
  rewrite Hlookup. simpl.
  destruct (Z.ltb_spec (Cache.ttl cache2) (later - now)); [lia|]. reflexivity.
Qed.

End MemoFacts.

End SettingsKeyFacts.

(** Settings with every toggle on, with and without the debug log, share
    the key; settings with every toggle off have the key [empty]. *)
Lemma generateSettingsKey_inj_witness :
  RuleLoader.generateSettingsKey (allOn true)
  = RuleLoader.generateSettingsKey (allOn false) /\
  RuleLoader.generateSettingsKey allOff = "empty"%string /\
  ruleToggles (allOn true) <> ruleToggles allOff.
Proof.
  split; [apply (proj2 (generateSettingsKey_inj (allOn true) (allOn false)));
          reflexivity|].
  split; [reflexivity|]. discriminate.
Defined.

(** The rules are loaded at time 0 into the empty memo of ten minutes;
    a minute later, with the debug log switched off, they come from the
    memo. *)
Lemma loadRules_memo_witness :
  let first :=
    RuleLoader.loadRules string (fun _ => ["rule"%string]) 0 (allOn true)
      (Cache.new (10 * 60 * 1000)) in
  RuleLoader.loadRules string (fun _ => []) 60000 (allOn false)
    (RuleLoader.rulesCache string first)
  = RuleLoader.mkLoaded string ["rule"%string] false
      (RuleLoader.rulesCache string first).
Proof.
  intros first.
  apply (loadRules_memo string (fun _ => ["rule"%string]) (fun _ => []) 0 60000
           (allOn true) (allOn false) (Cache.new (10 * 60 * 1000))).
  - vm_compute. reflexivity.
  - reflexivity.
  - vm_compute. discriminate.
Defined.

(** ** The end of the highlighted word *)

Section WordEndFacts.
Import EditorExtension.

Lemma skipSpace_spec fuel lineText maxLength endIndex :
  let r := skipSpace fuel lineText maxLength endIndex in
  endIndex <= r <= Z.max endIndex maxLength /\
  (forall i, endIndex <= i < r -> spaceAt lineText i = true) /\
  (maxLength - endIndex <= Z.of_nat fuel -> r < maxLength ->
   spaceAt lineText r = false).
Proof.
  revert endIndex. induction fuel as [|fuel IH]; intros endIndex; cbn [skipSpace].
  - cbv zeta. repeat split; lia.
  - destruct (Z.ltb_spec endIndex maxLength) as [Hlt|Hge]; cbn [andb].
    + fold (spaceAt lineText endIndex).
      destruct (spaceAt lineText endIndex) eqn:Hspace.
      * specialize (IH (endIndex + 1)). cbv zeta in *.
        destruct IH as (Hbounds & Hinside & Hstop).
        split; [lia|]. split.
        -- intros i Hi. destruct (Z.eq_dec i endIndex) as [->|Hne];
             [exact Hspace | apply Hinside; lia].
        -- intros Hfuel. apply Hstop. lia.
      * cbv zeta. repeat split; try lia. intros _ _. exact Hspace.
    + cbv zeta. repeat split; lia.
Qed.

Lemma skipWord_spec fuel lineText maxLength endIndex :
  let r := skipWord fuel lineText maxLength endIndex in
  endIndex <= r <= Z.max endIndex maxLength /\
  (forall i, endIndex <= i < r -> boundaryAt lineText i = false) /\
  (maxLength - endIndex <= Z.of_nat fuel -> r < maxLength ->
   boundaryAt lineText r = true).
Proof.
  revert endIndex. induction fuel as [|fuel IH]; intros endIndex; cbn [skipWord].
  - cbv zeta. repeat split; lia.
  - destruct (Z.ltb_spec endIndex maxLength) as [Hlt|Hge]; cbn [andb].
    + fold (boundaryAt lineText endIndex).
      destruct (boundaryAt lineText endIndex) eqn:Hboundary; cbn [negb].
      * cbv zeta. repeat split; try lia. intros _ _. exact Hboundary.
      * specialize (IH (endIndex + 1)). cbv zeta in *.
        destruct IH as (Hbounds & Hinside & Hstop).
        split; [lia|]. split.
        -- intros i Hi. destruct (Z.eq_dec i endIndex) as [->|Hne];
             [exact Hboundary | apply Hinside; lia].
        -- intros Hfuel. apply Hstop. lia.
    + cbv zeta. repeat split; lia.
Qed.

(** X25. For a start index inside the line, [findWordEnd] returns an end
    index after the start, at most the length of the line, and at most
    twenty code units after the start: the highlighted span is never
    empty, never leaves the line and is never longer than twenty. *)
Theorem findWordEnd_bounds lineText startIndex :
  0 <= startIndex < Z.of_nat (length lineText) ->
  startIndex < findWordEnd lineText startIndex <= Z.of_nat (length lineText) /\
  findWordEnd lineText startIndex - startIndex <= 20.
Proof.
  intros Hstart. unfold findWordEnd. cbv zeta.
  set (maxLength := Z.min (Z.of_nat (length lineText)) (startIndex + 20)).
  set (afterSpace := skipSpace _ lineText maxLength startIndex).
  pose proof (skipSpace_spec (Z.to_nat (maxLength - startIndex)) lineText
                maxLength startIndex) as (Hspace & _).
  fold afterSpace in Hspace.
  pose proof (skipWord_spec (Z.to_nat (maxLength - afterSpace)) lineText
                maxLength afterSpace) as (Hword & _).
  cbv zeta in Hword. lia.
Qed.

(** X26. What [findWordEnd] spans, for any line and start index: first
    a run of white space from the start index, then code units none of
    which ends a word; and when the span stops before the length of the
    line and before twenty code units, the code unit at its end is one
    that ends a word.  The one exception is a start index at which the
    scan cannot advance at all, where the span is the single code unit at the start
    index. *)
Theorem findWordEnd_span lineText startIndex :
  let r := findWordEnd lineText startIndex in
  exists afterSpace,
    startIndex <= afterSpace /\
    (forall i, startIndex <= i < afterSpace -> spaceAt lineText i = true) /\
    ((afterSpace <= r /\
      (forall i, afterSpace <= i < r -> boundaryAt lineText i = false) /\
      (r < Z.min (Z.of_nat (length lineText)) (startIndex + 20) ->
       boundaryAt lineText r = true))
     \/ (r = startIndex + 1 /\ afterSpace = startIndex /\
         (startIndex < Z.min (Z.of_nat (length lineText)) (startIndex + 20) ->
          boundaryAt lineText startIndex = true))).
Proof.
  unfold findWordEnd. cbv zeta.
  set (maxLength := Z.min (Z.of_nat (length lineText)) (startIndex + 20)).
  set (afterSpace := skipSpace _ lineText maxLength startIndex).
  set (endIndex := skipWord _ lineText maxLength afterSpace).
  pose proof (skipSpace_spec (Z.to_nat (maxLength - startIndex)) lineText
                maxLength startIndex) as (Hspace & Hspaces & _).
  fold afterSpace in Hspace, Hspaces.
  pose proof (skipWord_spec (Z.to_nat (maxLength - afterSpace)) lineText
                maxLength afterSpace) as (Hword & Hwords & Hstop).
  fold endIndex in Hword, Hwords, Hstop. cbv zeta in *.
  exists afterSpace. split; [lia|]. split; [exact Hspaces|].
  destruct (Z_lt_le_dec startIndex endIndex) as [Hadvanced|Hstuck].
  - left. replace (Z.max endIndex (startIndex + 1)) with endIndex by lia.
    split; [lia|]. split; [exact Hwords|]. intros Hlt. apply Hstop; lia.
  - right. split; [lia|]. split; [lia|].
    intros Hlt. replace startIndex with endIndex at 1 by lia.
    apply Hstop; lia.
Qed.

End WordEndFacts.

(** In [  ab! cd], from index 0 the span ends at the [!] at index 4. *)
Lemma findWordEnd_bounds_witness :
  EditorExtension.findWordEnd spacedWords 0 = 4 /\
  (0 < EditorExtension.findWordEnd spacedWords 0 <= Z.of_nat (length spacedWords) /\
   EditorExtension.findWordEnd spacedWords 0 - 0 <= 20).
Proof.
  split; [reflexivity|].
  apply (findWordEnd_bounds spacedWords 0). vm_compute. split; [discriminate | reflexivity].
Defined.

(** ** Statistics and the removal of expired entries *)

Section CacheStatsFacts.
Context {T : Type}.
Import CacheStats.

Lemma cleanup_lookup now key (c : Cache.t T) :
  Cache.cache (cleanup now c) !! key
  = match Cache.cache c !! key with
    | Some entry =>
        if Cache.ttl c <? now - Cache.timestamp entry then None else Some entry
    | None => None
    end.
Proof.
  unfold cleanup. cbn [Cache.cache].
  destruct (Cache.cache c !! key) as [entry|] eqn:Hentry.
  - destruct (Cache.ttl c <? now - Cache.timestamp entry) eqn:Hexpired.
    + apply map_lookup_filter_None. right. intros entry' Hentry'. simpl. congruence.
    + apply map_lookup_filter_Some. split; [exact Hentry | exact Hexpired].
  - apply map_lookup_filter_None. left. exact Hentry.
Qed.

(** X27. The keys that [getStats] reports are exactly the keys for
    which [has] answers true at the same time, the reported size is their
    number, and no entry that it leaves in the cache has expired. *)
Theorem getStats_reports_live_keys now (c : Cache.t T) :
  let '(stats, c') := getStats now c in
  (forall key, key ∈ keys stats <-> (Cache.has now key c).1 = true) /\
  size_ stats = size (keys stats) /\
  (forall key entry, Cache.cache c' !! key = Some entry ->
                     now - Cache.timestamp entry <= Cache.ttl c').
Proof.
  unfold getStats. cbv zeta. cbn [keys size_]. split; [|split].
  - intros key. rewrite elem_of_dom, cleanup_lookup. unfold Cache.has, is_Some.
    destruct (Cache.cache c !! key) as [entry|].
    + destruct (Cache.ttl c <? now - Cache.timestamp entry); simpl;
        split; eauto; try discriminate. intros [x Hx]. discriminate.
    + simpl. split; [intros [x Hx]|]; discriminate.
  - symmetry. apply size_dom.
  - intros key entry. rewrite cleanup_lookup.
    destruct (Cache.cache c !! key) as [entry'|]; [|discriminate].
    destruct (Z.ltb_spec (Cache.ttl c) (now - Cache.timestamp entry')) as [|Hlive];
      [discriminate|].
    intros [= <-]. exact Hlive.
Qed.

(** X28. Removing the expired entries is invisible to later reads: at
    any time not before the removal, [get], [has] and [isValidByHash]
    answer for every key what they would have answered without it. *)
Theorem cleanup_is_invisible now later key currentHash (c : Cache.t T) :
  now <= later ->
  (Cache.get later key (cleanup now c)).1 = (Cache.get later key c).1 /\
  (Cache.has later key (cleanup now c)).1 = (Cache.has later key c).1 /\
  (Cache.isValidByHash later key currentHash (cleanup now c)).1
  = (Cache.isValidByHash later key currentHash c).1.
Proof.
  intros Hlater. unfold Cache.get, Cache.has, Cache.isValidByHash.
  rewrite cleanup_lookup. change (Cache.ttl (cleanup now c)) with (Cache.ttl c).
  destruct (Cache.cache c !! key) as [entry|]; [|repeat split].
  destruct (Z.ltb_spec (Cache.ttl c) (now - Cache.timestamp entry)) as [Hexpired|Hlive].
  - destruct (Z.ltb_spec (Cache.ttl c) (later - Cache.timestamp entry)); [|lia].
    destruct (negb (truthyStr (Cache.hash entry))); repeat split.
  - repeat split.
    + destruct (_ <? _); reflexivity.
    + destruct (_ <? _); reflexivity.
    + destruct (negb _); [reflexivity|]. destruct (_ <? _); reflexivity.
Qed.

End CacheStatsFacts.

(** At time 400000 the entry written at time 0 has expired in the
    five-minute cache: it is removed, and a read a second later answers
    as it would have without the removal. *)
Lemma cleanup_is_invisible_witness :
  (CacheStats.getStats 400000 oldAndNew).1 = CacheStats.mkStats 1 {["new"%string]} /\
  (Cache.get 401000 "old" (CacheStats.cleanup 400000 oldAndNew)).1
  = (Cache.get 401000 "old" oldAndNew).1.
Proof.
  split; [vm_compute; reflexivity|].
  apply (cleanup_is_invisible 400000 401000 "old" "" oldAndNew). lia.
Defined.

(** ** The settings used for a document *)

Section RuleSetFacts.
Variable TextlintRule : Type.

(** X29. [getOptimizedRuleSet] changes no setting, whatever the
    document: the rules that a cycle loads for a document, and the memo
    entry it reads or writes, are those of the plain settings. *)
Theorem getOptimizedRuleSet_changes_nothing content settings
  (loadValidRules : TextlintPluginSettings -> list TextlintRule) now cache :
  AdaptiveRuleSet.getOptimizedRuleSet content settings = settings /\
  RuleLoader.loadRules TextlintRule loadValidRules now
    (AdaptiveRuleSet.getOptimizedRuleSet content settings) cache
  = RuleLoader.loadRules TextlintRule loadValidRules now settings cache.
Proof.
  assert (Hsame : AdaptiveRuleSet.getOptimizedRuleSet content settings = settings)
    by (destruct settings; reflexivity).
  split; [exact Hsame | rewrite Hsame; reflexivity].
Qed.

End RuleSetFacts.
